(** * Rendering of custom-perspective tasks

    A shallow embedding of
    [src/tools/primitives/getCustomPerspectiveTasks.ts] and
    [src/utils/taskLinkFormatter.ts], and the properties of the three
    renderers (tree, grouped by project, flat) and of the orchestrator
    that dispatches to them.

    Modelling conventions.
    - A JavaScript string is the sequence of its UTF-16 code units
      ([jsstring]); [length], [substring] and [trim] act on code units
      as they do in the language.  The literals of the source are
      written as they are and decoded by [js].
    - A record coming from the external query has the fields of the
      data model; an optional field is an [option] ([None] stands for
      [undefined]/[null]), and the truthiness tests of the source are
      written out ([truthy], [truthyNum]).  [parent] keeps the
      difference between an absent field and [null], since the source
      compares it with [===].
    - An object used as a map ([taskMap]) and the [Map] of the grouped
      renderer are association lists in enumeration order, since
      [Object.values] and [Map.forEach] depend on that order.
    - [lines.push] is explicit state passing: the array goes in and
      comes out.
    - [renderTaskTree] recurses over data that nothing forces to be
      well-founded, so it takes fuel (one unit per nested call) and
      returns [None] when the fuel does not reach the bottom.
    - [throw]/[catch] is a completion type ([Completion]).
    - Locale-dependent date rendering and [JSON.parse] are parameters. *)

From Stdlib Require Import Strings.String Strings.Ascii Numbers.DecimalString.
From Stdlib Require Import ZArith NArith Bool Lia List Permutation.
Import ListNotations.

(** ** JavaScript strings *)

Definition codeUnit := N.
Definition jsstring := list codeUnit.

Module Utf8.
(** Decoding of the UTF-8 bytes of a source literal into UTF-16 code
    units, so that the literals below read as in the TypeScript file. *)

Fixpoint bytes_of (s : string) : list N :=
  match s with
  | EmptyString => []
  | String c s' => N_of_ascii c :: bytes_of s'
  end.

Definition cont (b : N) : N := (b mod 64)%N.

Definition encode_utf16 (cp : N) : jsstring :=
  if (cp <? 65536)%N then [cp]
  else let v := (cp - 65536)%N in [(55296 + v / 1024)%N; (56320 + v mod 1024)%N].

Fixpoint decode (fuel : nat) (bs : list N) : jsstring :=
  match fuel with
  | O => []
  | S fuel' =>
    match bs with
    | [] => []
    | b0 :: r0 =>
      if (b0 <? 128)%N then b0 :: decode fuel' r0
      else if (b0 <? 224)%N then
        match r0 with
        | b1 :: r1 => encode_utf16 ((b0 mod 32) * 64 + cont b1)%N ++ decode fuel' r1
        | _ => []
        end
      else if (b0 <? 240)%N then
        match r0 with
        | b1 :: b2 :: r2 =>
          encode_utf16 ((b0 mod 16) * 4096 + cont b1 * 64 + cont b2)%N ++ decode fuel' r2
        | _ => []
        end
      else
        match r0 with
        | b1 :: b2 :: b3 :: r3 =>
          encode_utf16 ((b0 mod 8) * 262144 + cont b1 * 4096 + cont b2 * 64 + cont b3)%N
            ++ decode fuel' r3
        | _ => []
        end
    end
  end.
End Utf8.

(** A literal of the source. *)
Definition js (s : string) : jsstring :=
  Utf8.decode (String.length s) (Utf8.bytes_of s).

(** The line feed, [\n] in the literals of the source. *)
Definition nl : jsstring := [10%N].

(** [WhiteSpace] and [LineTerminator] code units, the ones
    [String.prototype.trim] strips. *)
Definition isWhiteSpace (c : codeUnit) : bool :=
  ((9 <=? c) && (c <=? 13) || (c =? 32) || (c =? 160) || (c =? 5760)
   || (8192 <=? c) && (c <=? 8202) || (c =? 8232) || (c =? 8233)
   || (c =? 8239) || (c =? 8287) || (c =? 12288) || (c =? 65279))%N.

Fixpoint trimStart (s : jsstring) : jsstring :=
  match s with
  | [] => []
  | c :: r => if isWhiteSpace c then trimStart r else s
  end.

Definition trimEnd (s : jsstring) : jsstring := rev (trimStart (rev s)).

(** [s.trim()] *)
Definition trim (s : jsstring) : jsstring := trimEnd (trimStart s).

(** [s.substring(0, n)] for a constant [n >= 0]. *)
Definition substring0 (n : nat) (s : jsstring) : jsstring := firstn n s.

(** [parts.join(sep)] *)
Fixpoint join (sep : jsstring) (parts : list jsstring) : jsstring :=
  match parts with
  | [] => []
  | [p] => p
  | p :: rest => p ++ sep ++ join sep rest
  end.

(** An integer number inside a template literal. *)
Definition numToString (z : Z) : jsstring :=
  js (NilZero.string_of_int (Z.to_int z)).

Definition jsstring_eq_dec : forall a b : jsstring, {a = b} + {a <> b} :=
  list_eq_dec N.eq_dec.

Definition streq (a b : jsstring) : bool :=
  if jsstring_eq_dec a b then true else false.

(** Truthiness of an optional string: present and not empty. *)
Definition truthy (o : option jsstring) : option jsstring :=
  match o with
  | Some (c :: r) => Some (c :: r)
  | _ => None
  end.

(** Truthiness of an optional number: present and not zero. *)
Definition truthyNum (o : option Z) : option Z :=
  match o with
  | Some z => if (z =? 0)%Z then None else Some z
  | None => None
  end.

(** [arr.push(x)] *)
Definition push {A : Type} (arr : list A) (x : A) : list A := arr ++ [x].

(** [arr.map((x, index) => f x index)], counting from [index]. *)
Fixpoint mapi_from {A B : Type} (f : A -> nat -> B) (index : nat) (arr : list A) : list B :=
  match arr with
  | [] => []
  | x :: r => f x index :: mapi_from f (S index) r
  end.

Definition mapi {A B : Type} (f : A -> nat -> B) (arr : list A) : list B :=
  mapi_from f 0 arr.

(** ** The data model *)

(** [task.parent]: the field may be missing, [null], or the id of the
    parent. *)
Inductive ParentRef :=
| ParentAbsent
| ParentNull
| ParentId (parentId : jsstring).

Module Task.
Record t := mk {
  id : jsstring;
  name : jsstring;
  completed : bool;
  flagged : bool;
  project : option jsstring;
  tags : list jsstring;
  dueDate : option jsstring;
  estimatedMinutes : option Z;
  note : option jsstring;
  parent : ParentRef;
  children : list jsstring
}.
End Task.

(** An object keyed by task id, as the list of its entries in
    enumeration order. *)
Definition TaskMap := list (jsstring * Task.t).

(** [taskMap[childId]] *)
Fixpoint lookup (taskMap : TaskMap) (key : jsstring) : option Task.t :=
  match taskMap with
  | [] => None
  | (k, v) :: r => if streq k key then Some v else lookup r key
  end.

(** [Object.values(taskMap)] *)
Definition Object_values (taskMap : TaskMap) : list Task.t := map snd taskMap.

(** ** src/utils/taskLinkFormatter.ts *)

Definition formatTaskLink (taskId : jsstring) : jsstring :=
  match taskId with
  | [] => []
  | _ => js "[開く](omnifocus:///task/" ++ taskId ++ js ")"
  end.

(** ** Field formatters *)

Definition formatTaskName (task : Task.t) : jsstring :=
  let name := js "**" ++ Task.name task ++ js "**" in
  if Task.completed task then js "~~" ++ name ++ js "~~ [完成]"
  else if Task.flagged task then js "[重要] " ++ name
  else name.

(** The estimate of [formatTaskDetails] and [formatFlatTasks]:
    [Math.floor(m / 60)] hours and [m % 60] minutes. *)
Definition estimateText (m : Z) : jsstring :=
  let hours := (m / 60)%Z in
  let minutes := Z.rem m 60 in
  if (hours >? 0)%Z then
    numToString hours ++ js "h"
      ++ (if (minutes >? 0)%Z then js " " ++ numToString minutes ++ js "m" else [])
  else numToString minutes ++ js "m".

(** The estimate of [formatTaskForGroup]: the same without the space. *)
Definition estimateTextGroup (m : Z) : jsstring :=
  let hours := (m / 60)%Z in
  let minutes := Z.rem m 60 in
  if (hours >? 0)%Z then
    numToString hours ++ js "h"
      ++ (if (minutes >? 0)%Z then numToString minutes ++ js "m" else [])
  else numToString minutes ++ js "m".

(** The note preview of [formatTaskDetails] (budget 60) and of
    [formatFlatTasks] (budget 100): [None] when the guard
    [task.note && task.note.trim()] fails, else the text after the
    label. *)
Definition notePreviewText (budget : nat) (note : option jsstring) : option jsstring :=
  match truthy note with
  | Some n =>
    match trim n with
    | [] => None
    | _ =>
      let notePreview := substring0 budget (trim n) in
      Some (notePreview ++ (if (budget <? length n)%nat then js "..." else []))
    end
  | None => None
  end.

(** ** Completions of the [try] block *)

(** What a [throw] carries: an [Error] with its message, or any other
    value, of which only [String(value)] is observed. *)
Inductive Exn :=
| ErrorObject (message : jsstring)
| OtherValue (shown : jsstring).

Inductive Completion (A : Type) :=
| Normal (value : A)
| Thrown (e : Exn).
Arguments Normal {A} value.
Arguments Thrown {A} e.

(** ** The external query's result *)

(** The structured result, with the fields the orchestrator reads. *)
Record Payload := mkPayload {
  success : bool;
  error : option jsstring;
  taskMap : option TaskMap;
  count : option Z
}.

(** What awaiting [executeOmniFocusScript] gives. *)
Inductive ScriptResult :=
| ResultString (raw : jsstring)
    (* typeof result === 'string' *)
| ResultObject (data : Payload)
    (* typeof result === 'object' && result !== null *)
| ResultOther (typeofResult shown : jsstring)
    (* anything else, with its typeof and its rendering in a template *)
| ScriptRejected (e : Exn).
    (* the promise was rejected *)

(** The options of a call; a missing option is [None]. *)
Record GetCustomPerspectiveTasksOptions := mkOptions {
  perspectiveName : jsstring;
  hideCompleted : option bool;
  limit : option Z;
  showHierarchy : option bool;
  groupByProject : option bool
}.

(** A destructuring default: [{ x = d } = options]. *)
Definition withDefault {A : Type} (d : A) (o : option A) : A :=
  match o with
  | Some v => v
  | None => d
  end.

(** ** The [Map] of the grouped renderer, in insertion order *)

Definition ProjectGroups := list (jsstring * list Task.t).

(** [projectGroups.has(projectName)] *)
Fixpoint groups_has (groups : ProjectGroups) (projectName : jsstring) : bool :=
  match groups with
  | [] => false
  | (k, _) :: r => streq k projectName || groups_has r projectName
  end.

(** [projectGroups.set(projectName, [])] for a key that is not there:
    the entry goes last. *)
Definition groups_set_new (groups : ProjectGroups) (projectName : jsstring) : ProjectGroups :=
  groups ++ [(projectName, [])].

(** [projectGroups.get(projectName)!.push(task)] *)
Fixpoint groups_push (groups : ProjectGroups) (projectName : jsstring) (task : Task.t)
  : ProjectGroups :=
  match groups with
  | [] => []
  | (k, bucket) :: r =>
    if streq k projectName then (k, push bucket task) :: r
    else (k, bucket) :: groups_push r projectName task
  end.

(** The body of [displayTasks.forEach] in [formatGroupedByProject],
    on the pair of [projectGroups] and [noProjectTasks]. *)
Definition groupStep (st : ProjectGroups * list Task.t) (task : Task.t)
  : ProjectGroups * list Task.t :=
  let (projectGroups, noProjectTasks) := st in
  match truthy (Task.project task) with
  | Some projectName =>
    let projectGroups :=
      if negb (groups_has projectGroups projectName)
      then groups_set_new projectGroups projectName
      else projectGroups in
    (groups_push projectGroups projectName task, noProjectTasks)
  | None => (projectGroups, push noProjectTasks task)
  end.

Definition groupTasks (displayTasks : list Task.t) : ProjectGroups * list Task.t :=
  fold_left groupStep displayTasks ([], []).

(** ** The limit of the flat and grouped renderers *)

(** [let displayTasks = tasks; if (limit && limit > 0) displayTasks =
    tasks.slice(0, limit)] *)
Definition displayTasks (tasks : list Task.t) (limit : Z) : list Task.t :=
  if negb (limit =? 0)%Z && (limit >? 0)%Z then firstn (Z.to_nat limit) tasks else tasks.

(** [totalCount > displayTasks.length]; an absent [data.count] compares
    false. *)
Definition exceeds (totalCount : option Z) (displayed : nat) : bool :=
  match totalCount with
  | Some c => (c >? Z.of_nat displayed)%Z
  | None => false
  end.

(** [${totalCount}] *)
Definition showCount (totalCount : option Z) : jsstring :=
  match totalCount with
  | Some c => numToString c
  | None => js "undefined"
  end.

(** ** The tree walk: helpers *)

(** [arr.forEach((x, index) => ...)] threading the state and stopping
    when a call does not return. *)
Fixpoint forEachIdx {A St : Type} (f : A -> nat -> St -> option St) (arr : list A)
    (index : nat) (s : St) : option St :=
  match arr with
  | [] => Some s
  | x :: r =>
    match f x index s with
    | Some s' => forEachIdx f r (S index) s'
    | None => None
    end
  end.

(** The entries that are there. *)
Fixpoint somes {A : Type} (l : list (option A)) : list A :=
  match l with
  | [] => []
  | Some x :: r => x :: somes r
  | None :: r => somes r
  end.

(** The predicate of the [filter] over the resolved children:
    [child && (!hideCompleted || !child.completed)]. *)
Definition keepChild (hideCompleted : bool) (child : option Task.t) : bool :=
  match child with
  | Some c => negb hideCompleted || negb (Task.completed c)
  | None => false
  end.

(** [task.children.map(childId => taskMap[childId]).filter(...)] *)
Definition childTasks (taskMap : TaskMap) (hideCompleted : bool) (task : Task.t)
  : list Task.t :=
  somes (filter (keepChild hideCompleted) (map (lookup taskMap) (Task.children task))).

(** [Object.values(taskMap).filter(task => task.parent === null)] *)
Definition isRoot (task : Task.t) : bool :=
  match Task.parent task with
  | ParentNull => true
  | _ => false
  end.

Definition rootTasks (taskMap : TaskMap) : list Task.t :=
  filter isRoot (Object_values taskMap).

Definition filteredRootTasks (taskMap : TaskMap) (hideCompleted : bool) : list Task.t :=
  if hideCompleted
  then filter (fun task => negb (Task.completed task)) (rootTasks taskMap)
  else rootTasks taskMap.

(** ** src/utils/dateFormatter.ts *)

(** [\d] of a regular expression without the unicode flag. *)
Definition isDigit (c : codeUnit) : bool := ((48 <=? c) && (c <=? 57))%N.

(** [isoDate.match(/^(\d{4})-(\d{2})-(\d{2})/)]: the three groups
    when the string starts as the expression asks, else [None]. *)
Definition matchIsoDate (isoDate : jsstring) : option (jsstring * jsstring * jsstring) :=
  match isoDate with
  | y1 :: y2 :: y3 :: y4 :: h1 :: m1 :: m2 :: h2 :: d1 :: d2 :: _ =>
    if (isDigit y1 && isDigit y2 && isDigit y3 && isDigit y4 && (h1 =? 45)%N
        && isDigit m1 && isDigit m2 && (h2 =? 45)%N && isDigit d1 && isDigit d2)
    then Some ([y1; y2; y3; y4], [m1; m2], [d1; d2])
    else None
  | _ => None
  end.

(** [parseInt(s, 10)] on a string of decimal digits, as the groups of
    the match are. *)
Definition parseInt10 (s : jsstring) : Z :=
  fold_left (fun acc c => (acc * 10 + (Z.of_N c - 48))%Z) s 0%Z.

(** The lines of the snippet. *)
Definition dateVarLines (varName : jsstring) (year month day : Z) : list jsstring :=
  [ js "using terms from scripting additions";
    js "set " ++ varName ++ js " to current date";
    js "set day of " ++ varName ++ js " to 1";
    js "set year of " ++ varName ++ js " to " ++ numToString year;
    js "set month of " ++ varName ++ js " to " ++ numToString month;
    js "set day of " ++ varName ++ js " to " ++ numToString day;
    js "set time of " ++ varName ++ js " to 0";
    js "end using terms from" ].

(** [indent] is [None] when the argument is left out. *)
Definition generateAppleScriptDateVar (isoDate varName : jsstring) (indent : option jsstring)
  : Completion jsstring :=
  let indent := withDefault [] indent in
  match isoDate, trim isoDate with
  | [], _ | _, [] => Thrown (ErrorObject (js "Date string cannot be empty"))
  | _, _ =>
    match matchIsoDate isoDate with
    | None => Thrown (ErrorObject (js "Invalid date string: " ++ isoDate))
    | Some (yearStr, monthStr, dayStr) =>
      let year := parseInt10 yearStr in
      let month := parseInt10 monthStr in
      let day := parseInt10 dayStr in
      if ((month <? 1) || (month >? 12))%Z then
        Thrown (ErrorObject (js "Invalid month: " ++ numToString month
                               ++ js " in date string: " ++ isoDate))
      else if ((day <? 1) || (day >? 31))%Z then
        Thrown (ErrorObject (js "Invalid day: " ++ numToString day
                               ++ js " in date string: " ++ isoDate))
      else Normal (join (nl ++ indent) (dateVarLines varName year month day))
    end
  end.

(** *** Dates written out, to state what the function accepts *)

Definition digit (z : Z) : codeUnit := Z.to_N (48 + z).

(** Two and four decimal digits, with leading zeros. *)
Definition pad2 (z : Z) : jsstring := [digit (z / 10); digit (z mod 10)].

Definition pad4 (z : Z) : jsstring :=
  [digit (z / 1000); digit (z / 100 mod 10); digit (z / 10 mod 10); digit (z mod 10)].

(** [YYYY-MM-DD] *)
Definition isoDateOf (year month day : Z) : jsstring :=
  pad4 year ++ js "-" ++ pad2 month ++ js "-" ++ pad2 day.

(** ** More records that differ in one field *)

Definition setFlagged (flagged : bool) (task : Task.t) : Task.t :=
  Task.mk (Task.id task) (Task.name task) (Task.completed task) flagged
    (Task.project task) (Task.tags task) (Task.dueDate task) (Task.estimatedMinutes task)
    (Task.note task) (Task.parent task) (Task.children task).

Definition setCompleted (completed : bool) (task : Task.t) : Task.t :=
  Task.mk (Task.id task) (Task.name task) completed (Task.flagged task)
    (Task.project task) (Task.tags task) (Task.dueDate task) (Task.estimatedMinutes task)
    (Task.note task) (Task.parent task) (Task.children task).

Section Renderers.

Set Default Proof Using "Type".

(** [new Date(d).toLocaleDateString()] *)
Variable toLocaleDateString : jsstring -> jsstring.
(** [new Date(d).toLocaleDateString('zh-CN', { month: 'short', day: 'numeric' })] *)
Variable toLocaleDateStringShort : jsstring -> jsstring.
(** [JSON.parse], [None] when it throws. *)
Variable JSON_parse : jsstring -> option Payload.

(** Drops the parameters a goal does not mention, so that a decision
    procedure leaves them alone. *)
Ltac forget_parameters :=
  try clear toLocaleDateString; try clear toLocaleDateStringShort; try clear JSON_parse.

Definition formatTaskDetails (task : Task.t) : list jsstring :=
  let details := [] in
  let details :=
    match truthy (Task.project task) with
    | Some project => push details (js "项目: " ++ project)
    | None => details
    end in
  let details :=
    match Task.tags task with
    | [] => details
    | tags => push details (js "标签: " ++ join (js ", ") tags)
    end in
  let details :=
    match truthy (Task.dueDate task) with
    | Some d => push details (js "截止: " ++ toLocaleDateString d)
    | None => details
    end in
  let details :=
    match truthyNum (Task.estimatedMinutes task) with
    | Some m => push details (js "预估: " ++ estimateText m)
    | None => details
    end in
  let details :=
    match notePreviewText 60 (Task.note task) with
    | Some preview => push details (js "备注: " ++ preview)
    | None => details
    end in
  details.

(** The two prefixes of a node. *)
Definition connector (isLast : bool) : jsstring :=
  if isLast then js "└─ " else js "├─ ".

Definition continuation (isLast : bool) : jsstring :=
  if isLast then js "   " else js "│  ".

Fixpoint renderTaskTree (fuel : nat) (task : Task.t) (taskMap : TaskMap)
    (hideCompleted : bool) (prefix : jsstring) (isLast : bool) (lines : list jsstring)
  : option (list jsstring) :=
  match fuel with
  | O => None
  | S fuel' =>
    let currentPrefix := prefix ++ connector isLast in
    let taskLine :=
      currentPrefix ++ formatTaskName task ++ js " " ++ formatTaskLink (Task.id task) in
    let lines := push lines taskLine in
    let detailPrefix := prefix ++ continuation isLast in
    let taskDetails := formatTaskDetails task in
    let lines := fold_left (fun ls detail => push ls (detailPrefix ++ detail)) taskDetails lines in
    match Task.children task with
    | [] => Some lines
    | _ =>
      let childTasks := childTasks taskMap hideCompleted task in
      forEachIdx
        (fun childTask index ls =>
           let isLastChild := Nat.eqb index (length childTasks - 1) in
           let childPrefix := prefix ++ continuation isLast in
           renderTaskTree fuel' childTask taskMap hideCompleted childPrefix isLastChild ls)
        childTasks 0 lines
    end
  end.

Definition hierarchyHeader (perspectiveName : jsstring) : jsstring :=
  js "**透视任务：" ++ perspectiveName ++ js "** (层级视图)" ++ nl ++ nl.

(** The [filteredRootTasks.forEach] of [formatHierarchicalTasks]:
    the array [taskTreeLines] once every root is rendered. *)
Definition renderRoots (fuel : nat) (taskMap : TaskMap) (hideCompleted : bool)
    (filteredRootTasks : list Task.t) : option (list jsstring) :=
  forEachIdx
    (fun rootTask index ls =>
       let isLast := Nat.eqb index (length filteredRootTasks - 1) in
       renderTaskTree fuel rootTask taskMap hideCompleted [] isLast ls)
    filteredRootTasks 0 [].

Definition formatHierarchicalTasks (fuel : nat) (perspectiveName : jsstring)
    (taskMap : TaskMap) (hideCompleted : bool) : option jsstring :=
  let header := hierarchyHeader perspectiveName in
  let filteredRootTasks := filteredRootTasks taskMap hideCompleted in
  match filteredRootTasks with
  | [] =>
    Some (header ++ js "暂无" ++ (if hideCompleted then js "未完成" else []) ++ js "根任务。")
  | _ =>
    match renderRoots fuel taskMap hideCompleted filteredRootTasks with
    | Some taskTreeLines => Some (header ++ join nl taskTreeLines)
    | None => None
    end
  end.

(** The block of one task in [formatFlatTasks] (the callback of
    [displayTasks.map]). *)
Definition flatTaskText (task : Task.t) (index : nat) : jsstring :=
  let taskText := numToString (Z.of_nat index + 1) ++ js ". **" ++ Task.name task ++ js "**" in
  let taskText :=
    match truthy (Task.project task) with
    | Some project => taskText ++ nl ++ js "   项目: " ++ project
    | None => taskText
    end in
  let taskText :=
    match Task.tags task with
    | [] => taskText
    | tags => taskText ++ nl ++ js "   标签: " ++ join (js ", ") tags
    end in
  let taskText :=
    match truthy (Task.dueDate task) with
    | Some d => taskText ++ nl ++ js "   截止: " ++ toLocaleDateString d
    | None => taskText
    end in
  let taskText :=
    if Task.flagged task then taskText ++ nl ++ js "   [重要]" else taskText in
  let taskText :=
    match truthyNum (Task.estimatedMinutes task) with
    | Some m => taskText ++ nl ++ js "   预估: " ++ estimateText m
    | None => taskText
    end in
  let taskText :=
    match notePreviewText 100 (Task.note task) with
    | Some preview => taskText ++ nl ++ js "   备注: " ++ preview
    | None => taskText
    end in
  taskText ++ nl ++ js "   " ++ formatTaskLink (Task.id task).

(** The footer of [formatFlatTasks]. *)
Definition flatFooter (totalCount : option Z) (displayed : nat) : jsstring :=
  if exceeds totalCount displayed
  then nl ++ nl ++ js "提示: 共找到 " ++ showCount totalCount ++ js " 个任务，显示 "
         ++ numToString (Z.of_nat displayed) ++ js " 个"
  else [].

Definition formatFlatTasks (perspectiveName : jsstring) (tasks : list Task.t)
    (limit : Z) (totalCount : option Z) : jsstring :=
  let displayTasks := displayTasks tasks limit in
  let taskList := join (nl ++ nl) (mapi flatTaskText displayTasks) in
  let header :=
    js "**透视任务：" ++ perspectiveName ++ js "** ("
      ++ numToString (Z.of_nat (length displayTasks)) ++ js "个任务)" ++ nl ++ nl in
  let footer := flatFooter totalCount (length displayTasks) in
  header ++ taskList ++ footer.

Definition formatTaskForGroup (task : Task.t) : jsstring :=
  let statusIcon :=
    if Task.completed task then js "✅"
    else if Task.flagged task then js "🔶" else js "○" in
  let taskLine := js "- " ++ statusIcon ++ js " **" ++ Task.name task ++ js "**" in
  let taskLine :=
    match Task.tags task with
    | [] => taskLine
    | tags => taskLine ++ js " `" ++ join (js "` `") tags ++ js "`"
    end in
  let taskLine :=
    match truthy (Task.dueDate task) with
    | Some d => taskLine ++ js " 📅 " ++ toLocaleDateStringShort d
    | None => taskLine
    end in
  let taskLine :=
    match truthyNum (Task.estimatedMinutes task) with
    | Some m => taskLine ++ js " ⏱️ " ++ estimateTextGroup m
    | None => taskLine
    end in
  taskLine ++ js " " ++ formatTaskLink (Task.id task).

(** The lines of one project bucket. *)
Definition bucketLines (entry : jsstring * list Task.t) : list jsstring :=
  let (projectName, projectTasks) := entry in
  (nl ++ js "### 📁 " ++ projectName) :: [] :: map formatTaskForGroup projectTasks.

(** The lines of the inbox bucket. *)
Definition inboxLines (noProjectTasks : list Task.t) : list jsstring :=
  match noProjectTasks with
  | [] => []
  | _ => (nl ++ js "### 📥 收件箱") :: [] :: map formatTaskForGroup noProjectTasks
  end.

(** The array [lines] of [formatGroupedByProject] after both loops. *)
Definition groupedLines (displayTasks : list Task.t) : list jsstring :=
  let (projectGroups, noProjectTasks) := groupTasks displayTasks in
  flat_map bucketLines projectGroups ++ inboxLines noProjectTasks.

Definition groupedHeader (perspectiveName : jsstring) (displayed projects : nat) : jsstring :=
  js "## 透视任务：" ++ perspectiveName ++ nl ++ nl ++ js "**共 "
    ++ numToString (Z.of_nat displayed) ++ js " 个任务，"
    ++ numToString (Z.of_nat projects) ++ js " 个项目**".

Definition groupedFooter (totalCount : option Z) (displayed : nat) : jsstring :=
  if exceeds totalCount displayed
  then nl ++ nl ++ js "---" ++ nl ++ js "💡 *共找到 " ++ showCount totalCount
         ++ js " 个任务，显示 " ++ numToString (Z.of_nat displayed) ++ js " 个*"
  else [].

Definition formatGroupedByProject (perspectiveName : jsstring) (tasks : list Task.t)
    (limit : Z) (totalCount : option Z) : jsstring :=
  let displayTasks := displayTasks tasks limit in
  let lines := groupedLines displayTasks in
  let header :=
    groupedHeader perspectiveName (length displayTasks)
      (length (fst (groupTasks displayTasks))) in
  let footer := groupedFooter totalCount (length displayTasks) in
  header ++ join nl lines ++ footer.

(** The start of the [try] block: the script's result, normalised to
    [data]. *)
Definition decodeResult (result : ScriptResult) : Completion Payload :=
  match result with
  | ScriptRejected e => Thrown e
  | ResultString raw =>
    match JSON_parse raw with
    | Some data => Normal data
    | None => Thrown (ErrorObject (js "解析字符串结果失败: " ++ raw))
    end
  | ResultObject data => Normal data
  | ResultOther typeofResult shown =>
    Thrown (ErrorObject (js "脚本执行返回了无效的结果类型: " ++ typeofResult
                           ++ js ", 值: " ++ shown))
  end.

(** The [try] block of [getCustomPerspectiveTasks]; [None] when the
    tree walk does not return. *)
Definition tryBlock (fuel : nat) (perspectiveName : jsstring) (hideCompleted : bool)
    (limit : Z) (showHierarchy groupByProject : bool) (result : ScriptResult)
  : option (Completion jsstring) :=
  match decodeResult result with
  | Thrown e => Some (Thrown e)
  | Normal data =>
    if negb (success data) then
      Some (Thrown (ErrorObject
                      (match truthy (error data) with
                       | Some message => message
                       | None => js "Unknown error occurred"
                       end)))
    else
      let taskMap := withDefault [] (taskMap data) in
      let allTasks := Object_values taskMap in
      let filteredTasks :=
        if hideCompleted
        then filter (fun task => negb (Task.completed task)) allTasks
        else allTasks in
      match filteredTasks with
      | [] =>
        Some (Normal (js "**透视任务：" ++ perspectiveName ++ js "**" ++ nl ++ nl
                        ++ js "暂无" ++ (if hideCompleted then js "未完成" else [])
                        ++ js "任务。"))
      | _ =>
        if showHierarchy then
          option_map Normal (formatHierarchicalTasks fuel perspectiveName taskMap hideCompleted)
        else if groupByProject then
          Some (Normal (formatGroupedByProject perspectiveName filteredTasks limit (count data)))
        else
          Some (Normal (formatFlatTasks perspectiveName filteredTasks limit (count data)))
      end
  end.

(** [error instanceof Error ? error.message : String(error)] *)
Definition errorText (e : Exn) : jsstring :=
  match e with
  | ErrorObject message => message
  | OtherValue shown => shown
  end.

Definition getCustomPerspectiveTasks (fuel : nat) (options : GetCustomPerspectiveTasksOptions)
    (result : ScriptResult) : option jsstring :=
  let perspectiveName := perspectiveName options in
  let hideCompleted := withDefault true (hideCompleted options) in
  let limit := withDefault 1000%Z (limit options) in
  let showHierarchy := withDefault false (showHierarchy options) in
  let groupByProject := withDefault true (groupByProject options) in
  match perspectiveName with
  | [] => Some (js "❌ **错误**: 透视名称不能为空")
  | _ =>
    match tryBlock fuel perspectiveName hideCompleted limit showHierarchy groupByProject result with
    | None => None
    | Some (Normal text) => Some text
    | Some (Thrown e) => Some (js "❌ **错误**: " ++ errorText e)
    end
  end.


(** ** The call trace of the tree walk

    One [Visit] per call of [renderTaskTree], in call order, with the
    arguments that decide what the call prints. *)

Record Visit := mkVisit {
  v_task : Task.t;
  v_prefix : jsstring;
  v_isLast : bool
}.

Fixpoint collectIdx {A B : Type} (f : A -> nat -> option (list B)) (arr : list A)
    (index : nat) : option (list B) :=
  match arr with
  | [] => Some []
  | x :: r =>
    match f x index with
    | Some here => option_map (app here) (collectIdx f r (S index))
    | None => None
    end
  end.

Fixpoint visits (fuel : nat) (taskMap : TaskMap) (hideCompleted : bool) (task : Task.t)
    (prefix : jsstring) (isLast : bool) : option (list Visit) :=
  match fuel with
  | O => None
  | S fuel' =>
    let cs := childTasks taskMap hideCompleted task in
    option_map (cons (mkVisit task prefix isLast))
      (collectIdx
         (fun c index =>
            visits fuel' taskMap hideCompleted c (prefix ++ continuation isLast)
              (Nat.eqb index (length cs - 1)))
         cs 0)
  end.

Definition visitsRoots (fuel : nat) (taskMap : TaskMap) (hideCompleted : bool)
    (roots : list Task.t) : option (list Visit) :=
  collectIdx
    (fun r index => visits fuel taskMap hideCompleted r [] (Nat.eqb index (length roots - 1)))
    roots 0.

(** What one call pushes before it recurses: the task's line, then
    its detail lines. *)
Definition visitLines (v : Visit) : list jsstring :=
  ((v_prefix v ++ connector (v_isLast v)) ++ formatTaskName (v_task v) ++ js " "
     ++ formatTaskLink (Task.id (v_task v)))
    :: map (fun detail => (v_prefix v ++ continuation (v_isLast v)) ++ detail)
         (formatTaskDetails (v_task v)).

(** ** Well-founded maps

    [rank] decreases along every [children] link that resolves in
    the map. *)
Definition wellFoundedBy (taskMap : TaskMap) (rank : Task.t -> nat) : bool :=
  forallb
    (fun t =>
       forallb
         (fun cid =>
            match lookup taskMap cid with
            | Some c => (rank c <? rank t)%nat
            | None => true
            end)
         (Task.children t))
    (Object_values taskMap).

(** ** Grouping, stated over the displayed sequence *)

Definition projectOf (task : Task.t) : option jsstring := truthy (Task.project task).

Definition inProject (p : jsstring) (task : Task.t) : bool :=
  match projectOf task with
  | Some q => streq q p
  | None => false
  end.

Definition noProject (task : Task.t) : bool :=
  match projectOf task with
  | Some _ => false
  | None => true
  end.

(** The distinct elements in order of first occurrence. *)
Fixpoint firstSeen (ps : list jsstring) : list jsstring :=
  match ps with
  | [] => []
  | p :: r => p :: filter (fun q => negb (streq q p)) (firstSeen r)
  end.

Definition projectsOf (tasks : list Task.t) : list jsstring :=
  somes (map projectOf tasks).

Definition groupSpec (tasks : list Task.t) : ProjectGroups :=
  map (fun p => (p, filter (inProject p) tasks)) (firstSeen (projectsOf tasks)).

(** ** The render mode, as the specification words it *)

Inductive RenderMode := Hierarchical | GroupedByProject | Flat.

Definition chosenMode (showHierarchy groupByProject : bool) : RenderMode :=
  if showHierarchy then Hierarchical
  else if groupByProject then GroupedByProject
  else Flat.

Definition renderWith (mode : RenderMode) (fuel : nat) (perspectiveName : jsstring)
    (taskMap : TaskMap) (filteredTasks : list Task.t) (hideCompleted : bool) (limit : Z)
    (totalCount : option Z) : option jsstring :=
  match mode with
  | Hierarchical => formatHierarchicalTasks fuel perspectiveName taskMap hideCompleted
  | GroupedByProject =>
    Some (formatGroupedByProject perspectiveName filteredTasks limit totalCount)
  | Flat => Some (formatFlatTasks perspectiveName filteredTasks limit totalCount)
  end.

(** The list [filteredTasks] of the orchestrator. *)
Definition filteredTasksOf (hideCompleted : bool) (taskMap : TaskMap) : list Task.t :=
  if hideCompleted
  then filter (fun task => negb (Task.completed task)) (Object_values taskMap)
  else Object_values taskMap.

(** ** Records that differ in one field *)

Definition setNote (note : option jsstring) (task : Task.t) : Task.t :=
  Task.mk (Task.id task) (Task.name task) (Task.completed task) (Task.flagged task)
    (Task.project task) (Task.tags task) (Task.dueDate task) (Task.estimatedMinutes task)
    note (Task.parent task) (Task.children task).

Definition setEstimatedMinutes (m : option Z) (task : Task.t) : Task.t :=
  Task.mk (Task.id task) (Task.name task) (Task.completed task) (Task.flagged task)
    (Task.project task) (Task.tags task) (Task.dueDate task) m
    (Task.note task) (Task.parent task) (Task.children task).



(** ** Example data *)

(** A plain active task. *)
Definition plainTask (id name : string) (parent : ParentRef) (children : list jsstring)
  : Task.t :=
  Task.mk (js id) (js name) false false None [] None None None parent children.

Definition completedTask (id name : string) (parent : ParentRef) : Task.t :=
  Task.mk (js id) (js name) true false None [] None None None parent [].

Definition projectTask (id name project : string) : Task.t :=
  Task.mk (js id) (js name) false false (Some (js project)) [] None None None ParentNull [].

Definition notedTask (note : jsstring) : Task.t :=
  Task.mk (js "n1") (js "N") false false None [] None None (Some note) ParentNull [].

Definition estimatedTask (m : Z) : Task.t :=
  Task.mk (js "e1") (js "E") false false None [] None (Some m) None ParentNull [].

(** Two records, B under A. *)
Definition treeMap : TaskMap :=
  [ (js "a", plainTask "a" "A" ParentNull [js "b"]);
    (js "b", plainTask "b" "B" (ParentId (js "a")) []) ].


(** B is a root and is listed among the children of A. *)
Definition sharedMap : TaskMap :=
  [ (js "a", plainTask "a" "A" ParentNull [js "b"]);
    (js "b", plainTask "b" "B" ParentNull []) ].

(** One record, whose [parent] field is missing. *)
Definition orphanMap : TaskMap :=
  [ (js "a", plainTask "a" "A" ParentAbsent []) ].

(** P lists an id that is not in the map, then B, then a completed C. *)
Definition siblingsMap : TaskMap :=
  [ (js "p", plainTask "p" "P" ParentNull [js "x"; js "b"; js "c"]);
    (js "b", plainTask "b" "B" (ParentId (js "p")) []);
    (js "c", completedTask "c" "C" (ParentId (js "p"))) ].

Definition fiveTasks : list Task.t :=
  [ plainTask "1" "T1" ParentNull []; plainTask "2" "T2" ParentNull [];
    plainTask "3" "T3" ParentNull []; plainTask "4" "T4" ParentNull [];
    plainTask "5" "T5" ParentNull [] ].

Definition alphaTasks : list Task.t :=
  [ projectTask "1" "T1" "Alpha"; plainTask "2" "T2" ParentNull [];
    projectTask "3" "T3" "Alpha" ].

Definition failedPayload (error : option jsstring) : Payload :=
  mkPayload false error None None.

Definition okPayload (taskMap : TaskMap) : Payload :=
  mkPayload true None (Some taskMap) (Some (Z.of_nat (length taskMap))).

Definition namedOptions (name : string) (showHierarchy groupByProject : option bool)
  : GetCustomPerspectiveTasksOptions :=
  mkOptions (js name) None None showHierarchy groupByProject.

(** Stand-ins for the parameters, for the examples. *)
Definition isoDate (d : jsstring) : jsstring := d.
Definition noParse (raw : jsstring) : option Payload := None.

Definition Task_eq_dec : forall a b : Task.t, {a = b} + {a <> b}.
Proof.
  assert (Hs : forall a b : jsstring, {a = b} + {a <> b}) by exact jsstring_eq_dec.
  assert (Hos : forall a b : option jsstring, {a = b} + {a <> b}) by (decide equality).
  assert (Hls : forall a b : list jsstring, {a = b} + {a <> b}) by (apply list_eq_dec; exact Hs).
  assert (Hoz : forall a b : option Z, {a = b} + {a <> b})
    by (decide equality; apply Z.eq_dec).
  assert (Hp : forall a b : ParentRef, {a = b} + {a <> b}) by (decide equality).
  decide equality; apply bool_dec.
Defined.

(** How often [x] is listed among the filtered children of the
    visited tasks. *)
Definition childReferences (taskMap : TaskMap) (hideCompleted : bool) (x : Task.t)
    (vs : list Visit) : nat :=
  list_sum
    (map (fun v => count_occ Task_eq_dec (childTasks taskMap hideCompleted (v_task v)) x) vs).

(** [whole] is [without] with [piece] put in at some place. *)
Definition insertedIn {A : Type} (piece whole without : list A) : Prop :=
  exists before after, without = before ++ after /\ whole = before ++ piece ++ after.

(** * Properties *)

(** ** Strings and lists *)

Lemma trimStart_length (s : jsstring) : length (trimStart s) <= length s.
Proof.
  induction s as [|c r IH]; simpl; [lia|].
  destruct (isWhiteSpace c); simpl; lia.
Qed.

Lemma trim_length (s : jsstring) : length (trim s) <= length s.
Proof.
  unfold trim, trimEnd.
  rewrite length_rev.
  etransitivity; [apply trimStart_length|].
  rewrite length_rev. apply trimStart_length.
Qed.

Lemma substring0_short (n : nat) (s : jsstring) :
  length s <= n -> substring0 n s = s.
Proof. intros H. unfold substring0. now apply firstn_all2. Qed.

Lemma substring0_long (n : nat) (s : jsstring) :
  n <= length s -> length (substring0 n s) = n.
Proof. intros H. unfold substring0. rewrite length_firstn. lia. Qed.

Lemma truthy_nonempty (s : jsstring) : s <> [] -> truthy (Some s) = Some s.
Proof. destruct s; [congruence | reflexivity]. Qed.

Lemma trim_nonempty_source (s : jsstring) : trim s <> [] -> s <> [].
Proof. intros H E. subst s. now apply H. Qed.

Lemma notePreviewText_trimmed (budget : nat) (note : jsstring) :
  trim note <> [] ->
  notePreviewText budget (Some note)
  = Some (substring0 budget (trim note)
            ++ (if (budget <? length note)%nat then js "..." else [])).
Proof.
  intros H. unfold notePreviewText.
  rewrite (truthy_nonempty note (trim_nonempty_source _ H)).
  destruct (trim note); [congruence | reflexivity].
Qed.

Lemma notePreviewText_blank (budget : nat) (note : jsstring) :
  trim note = [] -> notePreviewText budget (Some note) = None.
Proof.
  intros H. unfold notePreviewText.
  destruct note as [|c r]; [reflexivity|].
  cbn [truthy]. now rewrite H.
Qed.

Lemma fold_push_map {A B : Type} (f : A -> B) (l : list A) (acc : list B) :
  fold_left (fun ls x => push ls (f x)) l acc = acc ++ map f l.
Proof.
  revert acc. induction l as [|x r IH]; intros acc; simpl.
  - now rewrite app_nil_r.
  - rewrite IH. unfold push. now rewrite <- app_assoc.
Qed.

(** ** The note preview *)

(** The details of a task are those of the task without its note,
    followed by the note line when there is a preview. *)
Lemma formatTaskDetails_note (task : Task.t) :
  formatTaskDetails task
  = formatTaskDetails (setNote None task)
      ++ match notePreviewText 60 (Task.note task) with
         | Some preview => [js "备注: " ++ preview]
         | None => []
         end.
Proof.
  unfold formatTaskDetails, setNote; simpl.
  destruct (notePreviewText 60 (Task.note task)); unfold push; simpl.
  - reflexivity.
  - now rewrite app_nil_r.
Qed.

Lemma flatTaskText_note (task : Task.t) (index : nat) :
  match notePreviewText 100 (Task.note task) with
  | Some preview =>
    insertedIn (nl ++ js "   备注: " ++ preview)
      (flatTaskText task index) (flatTaskText (setNote None task) index)
  | None => flatTaskText task index = flatTaskText (setNote None task) index
  end.
Proof.
  unfold flatTaskText, setNote;
    cbn [Task.id Task.name Task.completed Task.flagged Task.project Task.tags
         Task.dueDate Task.estimatedMinutes Task.note notePreviewText truthy].
  destruct (notePreviewText 100 (Task.note task)); [|reflexivity].
  eexists; eexists; split; [reflexivity|].
  now rewrite <- !app_assoc.
Qed.

Lemma formatTaskForGroup_note (task : Task.t) (note : option jsstring) :
  formatTaskForGroup (setNote note task) = formatTaskForGroup task.
Proof. reflexivity. Qed.

(** C1, as the code has it: the note is trimmed before it is cut.  A
    note that is only white space gives no line; a note of at most
    [budget] code units gives its trimmed text, without ellipsis; a
    note whose trimmed text is longer than [budget] gives the first
    [budget] code units of the trimmed text, then the ellipsis.  The
    budget is 60 in the detail lines of the tree and 100 in the flat
    blocks; the line of the grouped renderer has no note. *)
Theorem note_preview_of_trimmed_note (task : Task.t) (note : jsstring) (index : nat) :
  Task.note task = Some note ->
  let plain := setNote None task in
  (trim note = [] ->
     formatTaskDetails task = formatTaskDetails plain
     /\ flatTaskText task index = flatTaskText plain index)
  /\ (trim note <> [] -> length note <= 60 ->
        formatTaskDetails task = formatTaskDetails plain ++ [js "备注: " ++ trim note])
  /\ (60 < length (trim note) ->
        formatTaskDetails task
        = formatTaskDetails plain ++ [js "备注: " ++ substring0 60 (trim note) ++ js "..."]
        /\ length (substring0 60 (trim note)) = 60)
  /\ (trim note <> [] -> length note <= 100 ->
        insertedIn (nl ++ js "   备注: " ++ trim note)
          (flatTaskText task index) (flatTaskText plain index))
  /\ (100 < length (trim note) ->
        insertedIn (nl ++ js "   备注: " ++ substring0 100 (trim note) ++ js "...")
          (flatTaskText task index) (flatTaskText plain index)
        /\ length (substring0 100 (trim note)) = 100)
  /\ formatTaskForGroup task = formatTaskForGroup plain.
Proof.
  intros Hnote plain.
  pose proof (formatTaskDetails_note task) as Hd.
  pose proof (flatTaskText_note task index) as Hf.
  pose proof (trim_length note) as Hlen.
  rewrite Hnote in Hd, Hf. fold plain in Hd, Hf.
  refine (conj _ (conj _ (conj _ (conj _ (conj _ _))))).
  - intros H. split.
    + rewrite Hd, (notePreviewText_blank 60 note H). now rewrite app_nil_r.
    + now rewrite (notePreviewText_blank 100 note H) in Hf.
  - intros H Hle.
    rewrite Hd, (notePreviewText_trimmed 60 note H).
    replace (60 <? length note)%nat with false by (symmetry; apply Nat.ltb_ge; lia).
    rewrite substring0_short by lia. now rewrite app_nil_r.
  - intros Hlt.
    assert (Hne : trim note <> []) by (destruct (trim note); [simpl in Hlt; lia | congruence]).
    split; [|apply substring0_long; lia].
    rewrite Hd, (notePreviewText_trimmed 60 note Hne).
    replace (60 <? length note)%nat with true by (symmetry; apply Nat.ltb_lt; lia).
    reflexivity.
  - intros H Hle.
    rewrite (notePreviewText_trimmed 100 note H) in Hf.
    replace (100 <? length note)%nat with false in Hf by (symmetry; apply Nat.ltb_ge; lia).
    rewrite substring0_short, app_nil_r in Hf by lia. exact Hf.
  - intros Hlt.
    assert (Hne : trim note <> []) by (destruct (trim note); [simpl in Hlt; lia | congruence]).
    split; [|apply substring0_long; lia].
    rewrite (notePreviewText_trimmed 100 note Hne) in Hf.
    replace (100 <? length note)%nat with true in Hf by (symmetry; apply Nat.ltb_lt; lia).
    exact Hf.
  - symmetry. apply formatTaskForGroup_note.
Qed.

(** ** The estimate *)

Lemma truthyNum_nonzero (m : Z) : m <> 0%Z -> truthyNum (Some m) = Some m.
Proof.
  intros H. unfold truthyNum.
  destruct (Z.eqb_spec m 0); [contradiction | reflexivity].
Qed.

Lemma formatTaskDetails_estimate (task : Task.t) (m : Z) :
  truthyNum (Task.estimatedMinutes task) = Some m ->
  insertedIn [js "预估: " ++ estimateText m]
    (formatTaskDetails task) (formatTaskDetails (setEstimatedMinutes None task)).
Proof.
  intros H.
  exists (formatTaskDetails (setNote None (setEstimatedMinutes None task))).
  exists (match notePreviewText 60 (Task.note task) with
          | Some preview => [js "备注: " ++ preview]
          | None => []
          end).
  unfold formatTaskDetails, setEstimatedMinutes, setNote;
    cbn [Task.id Task.name Task.completed Task.flagged Task.project Task.tags
         Task.dueDate Task.estimatedMinutes Task.note notePreviewText truthy truthyNum].
  rewrite H.
  destruct (notePreviewText 60 (Task.note task)); unfold push;
    rewrite <- ?app_assoc, ?app_nil_r; split; reflexivity.
Qed.

Lemma flatTaskText_estimate (task : Task.t) (index : nat) (m : Z) :
  truthyNum (Task.estimatedMinutes task) = Some m ->
  insertedIn (nl ++ js "   预估: " ++ estimateText m)
    (flatTaskText task index) (flatTaskText (setEstimatedMinutes None task) index).
Proof.
  intros H.
  unfold flatTaskText, setEstimatedMinutes;
    cbn [Task.id Task.name Task.completed Task.flagged Task.project Task.tags
         Task.dueDate Task.estimatedMinutes Task.note truthyNum].
  rewrite H.
  destruct (notePreviewText 100 (Task.note task));
    rewrite <- ?app_assoc; eexists; eexists; split; reflexivity.
Qed.

Lemma formatTaskForGroup_estimate (task : Task.t) (m : Z) :
  truthyNum (Task.estimatedMinutes task) = Some m ->
  insertedIn (js " ⏱️ " ++ estimateTextGroup m)
    (formatTaskForGroup task) (formatTaskForGroup (setEstimatedMinutes None task)).
Proof.
  intros H.
  unfold formatTaskForGroup, setEstimatedMinutes;
    cbn [Task.id Task.name Task.completed Task.flagged Task.project Task.tags
         Task.dueDate Task.estimatedMinutes Task.note truthyNum].
  rewrite H. rewrite <- ?app_assoc.
  eexists; eexists; split; reflexivity.
Qed.

Lemma no_estimate_same_output (task : Task.t) (index : nat) :
  truthyNum (Task.estimatedMinutes task) = None ->
  formatTaskDetails task = formatTaskDetails (setEstimatedMinutes None task)
  /\ flatTaskText task index = flatTaskText (setEstimatedMinutes None task) index
  /\ formatTaskForGroup task = formatTaskForGroup (setEstimatedMinutes None task).
Proof.
  intros H.
  unfold formatTaskDetails, flatTaskText, formatTaskForGroup, setEstimatedMinutes;
    cbn [Task.id Task.name Task.completed Task.flagged Task.project Task.tags
         Task.dueDate Task.estimatedMinutes Task.note truthyNum].
  rewrite H. repeat split.
Qed.

(** C10: in the detail lines of the tree, in the flat blocks and in
    the lines of the grouped renderer, an estimate is put in exactly
    when [estimatedMinutes] is present and not zero; a present zero
    gives the output of the task without the field.  With whole
    hours the minute part is left out, with zero hours only the
    minute part is shown. *)
Theorem estimate_rendered_iff_nonzero (task : Task.t) (index : nat) :
  let plain := setEstimatedMinutes None task in
  (forall m, Task.estimatedMinutes task = Some m -> m <> 0%Z ->
     insertedIn [js "预估: " ++ estimateText m]
       (formatTaskDetails task) (formatTaskDetails plain)
     /\ insertedIn (nl ++ js "   预估: " ++ estimateText m)
          (flatTaskText task index) (flatTaskText plain index)
     /\ insertedIn (js " ⏱️ " ++ estimateTextGroup m)
          (formatTaskForGroup task) (formatTaskForGroup plain))
  /\ (Task.estimatedMinutes task = None \/ Task.estimatedMinutes task = Some 0%Z ->
        formatTaskDetails task = formatTaskDetails plain
        /\ flatTaskText task index = flatTaskText plain index
        /\ formatTaskForGroup task = formatTaskForGroup plain)
  /\ (forall m, (0 < m / 60)%Z -> Z.rem m 60 = 0%Z ->
        estimateText m = numToString (m / 60) ++ js "h"
        /\ estimateTextGroup m = numToString (m / 60) ++ js "h")
  /\ (forall m, (0 < m / 60)%Z -> (0 < Z.rem m 60)%Z ->
        estimateText m
        = numToString (m / 60) ++ js "h" ++ js " " ++ numToString (Z.rem m 60) ++ js "m"
        /\ estimateTextGroup m
           = numToString (m / 60) ++ js "h" ++ numToString (Z.rem m 60) ++ js "m")
  /\ (forall m, (m / 60 = 0)%Z ->
        estimateText m = numToString (Z.rem m 60) ++ js "m"
        /\ estimateTextGroup m = numToString (Z.rem m 60) ++ js "m").
Proof.
  intros plain.
  refine (conj _ (conj _ (conj _ (conj _ _)))).
  - intros m Hm Hnz.
    assert (Ht : truthyNum (Task.estimatedMinutes task) = Some m)
      by (rewrite Hm; now apply truthyNum_nonzero).
    repeat split.
    + now apply formatTaskDetails_estimate.
    + now apply flatTaskText_estimate.
    + now apply formatTaskForGroup_estimate.
  - intros H. apply no_estimate_same_output.
    destruct H as [H|H]; rewrite H; reflexivity.
  - intros m Hh Hm. unfold estimateText, estimateTextGroup.
    replace (m / 60 >? 0)%Z with true by (symmetry; apply Z.gtb_lt; lia).
    rewrite Hm. cbn [Z.gtb Z.compare]. now rewrite app_nil_r.
  - intros m Hh Hm. unfold estimateText, estimateTextGroup.
    replace (m / 60 >? 0)%Z with true by (symmetry; apply Z.gtb_lt; lia).
    replace (Z.rem m 60 >? 0)%Z with true by (symmetry; apply Z.gtb_lt; lia).
    split; reflexivity.
  - intros m Hh. unfold estimateText, estimateTextGroup.
    rewrite Hh. split; reflexivity.
Qed.

(** ** The limit and the footer *)

Lemma displayTasks_positive (tasks : list Task.t) (limit : Z) :
  (0 < limit)%Z -> displayTasks tasks limit = firstn (Z.to_nat limit) tasks.
Proof.
  intros H. unfold displayTasks.
  destruct (Z.eqb_spec limit 0); [lia|].
  destruct (Z.gtb_spec limit 0); [reflexivity | lia].
Qed.

Lemma displayTasks_nonpositive (tasks : list Task.t) (limit : Z) :
  (limit <= 0)%Z -> displayTasks tasks limit = tasks.
Proof.
  intros H. unfold displayTasks.
  destruct (Z.eqb_spec limit 0); [reflexivity|].
  destruct (Z.gtb_spec limit 0); [lia | reflexivity].
Qed.

Lemma exceeds_spec (totalCount : option Z) (displayed : nat) :
  exceeds totalCount displayed = true
  <-> exists c, totalCount = Some c /\ (Z.of_nat displayed < c)%Z.
Proof.
  unfold exceeds. destruct totalCount as [c|].
  - rewrite Z.gtb_lt. split.
    + intros H. now exists c.
    + intros [c' [E H]]. now inversion E; subst.
  - split; [discriminate | intros [c [E _]]; discriminate].
Qed.

Lemma flatFooter_appears (totalCount : option Z) (displayed : nat) :
  flatFooter totalCount displayed <> [] <-> exceeds totalCount displayed = true.
Proof.
  unfold flatFooter. destruct (exceeds totalCount displayed).
  - split; [reflexivity | intros _; discriminate].
  - split; [congruence | discriminate].
Qed.

Lemma groupedFooter_appears (totalCount : option Z) (displayed : nat) :
  groupedFooter totalCount displayed <> [] <-> exceeds totalCount displayed = true.
Proof.
  unfold groupedFooter. destruct (exceeds totalCount displayed).
  - split; [reflexivity | intros _; discriminate].
  - split; [congruence | discriminate].
Qed.

(** The number of tasks held by the buckets and the inbox. *)
Lemma groups_push_size (groups : ProjectGroups) (p : jsstring) (task : Task.t) :
  groups_has groups p = true ->
  length (concat (map snd (groups_push groups p task)))
  = S (length (concat (map snd groups))).
Proof.
  induction groups as [|[k bucket] r IH]; simpl; [discriminate|].
  intros H. destruct (streq k p); simpl.
  - unfold push. rewrite !length_app. simpl. lia.
  - rewrite !length_app, IH by exact H. lia.
Qed.

Lemma groups_has_set_new (groups : ProjectGroups) (p : jsstring) :
  groups_has (groups_set_new groups p) p = true.
Proof.
  unfold groups_set_new. induction groups as [|[k bucket] r IH]; simpl.
  - unfold streq. destruct (jsstring_eq_dec p p); [reflexivity | congruence].
  - rewrite IH. apply orb_true_r.
Qed.

Lemma groups_set_new_size (groups : ProjectGroups) (p : jsstring) :
  length (concat (map snd (groups_set_new groups p))) = length (concat (map snd groups)).
Proof.
  unfold groups_set_new. rewrite map_app, concat_app, length_app. simpl. lia.
Qed.

Lemma groupStep_size (st : ProjectGroups * list Task.t) (task : Task.t) :
  length (concat (map snd (fst (groupStep st task)))) + length (snd (groupStep st task))
  = S (length (concat (map snd (fst st))) + length (snd st)).
Proof.
  destruct st as [groups inbox]. unfold groupStep.
  destruct (truthy (Task.project task)) as [p|]; simpl.
  - destruct (groups_has groups p) eqn:E; simpl.
    + rewrite groups_push_size by exact E. lia.
    + rewrite groups_push_size by apply groups_has_set_new.
      rewrite groups_set_new_size. lia.
  - unfold push. rewrite length_app. simpl. lia.
Qed.

Lemma fold_groupStep_size (tasks : list Task.t) (st : ProjectGroups * list Task.t) :
  let st' := fold_left groupStep tasks st in
  length (concat (map snd (fst st'))) + length (snd st')
  = length tasks + (length (concat (map snd (fst st))) + length (snd st)).
Proof.
  revert st. induction tasks as [|t r IH]; intros st; simpl; [reflexivity|].
  rewrite IH, groupStep_size. lia.
Qed.

Lemma groupTasks_size (tasks : list Task.t) :
  length (concat (map snd (fst (groupTasks tasks)))) + length (snd (groupTasks tasks))
  = length tasks.
Proof.
  unfold groupTasks. rewrite (fold_groupStep_size tasks ([], [])). simpl. lia.
Qed.

(** C4: the flat and the grouped renderer display the first [limit]
    tasks when the limit is positive and all of them otherwise, so
    never more than a positive limit; the blocks of the flat output
    and the task lines of the grouped output are those of the
    displayed tasks, and the footer is there exactly when
    [totalCount] is greater than their number. *)
Theorem limit_and_footer (perspectiveName : jsstring) (tasks : list Task.t) (limit : Z)
    (totalCount : option Z) :
  let shown := displayTasks tasks limit in
  let groups := fst (groupTasks shown) in
  let inbox := snd (groupTasks shown) in
  ((0 < limit)%Z ->
     shown = firstn (Z.to_nat limit) tasks /\ (Z.of_nat (length shown) <= limit)%Z)
  /\ ((limit <= 0)%Z -> shown = tasks)
  /\ formatFlatTasks perspectiveName tasks limit totalCount
     = (js "**透视任务：" ++ perspectiveName ++ js "** ("
          ++ numToString (Z.of_nat (length shown)) ++ js "个任务)" ++ nl ++ nl)
         ++ join (nl ++ nl) (mapi flatTaskText shown)
         ++ flatFooter totalCount (length shown)
  /\ length (mapi flatTaskText shown) = length shown
  /\ formatGroupedByProject perspectiveName tasks limit totalCount
     = groupedHeader perspectiveName (length shown) (length groups)
         ++ join nl (flat_map bucketLines groups ++ inboxLines inbox)
         ++ groupedFooter totalCount (length shown)
  /\ length (concat (map snd groups)) + length inbox = length shown
  /\ (flatFooter totalCount (length shown) <> []
      <-> exists c, totalCount = Some c /\ (Z.of_nat (length shown) < c)%Z)
  /\ (groupedFooter totalCount (length shown) <> []
      <-> exists c, totalCount = Some c /\ (Z.of_nat (length shown) < c)%Z).
Proof.
  intros shown groups inbox.
  refine (conj _ (conj _ (conj _ (conj _ (conj _ (conj _ (conj _ _))))))).
  - intros H. unfold shown. rewrite displayTasks_positive by exact H.
    split; [reflexivity|]. rewrite length_firstn. lia.
  - intros H. now apply displayTasks_nonpositive.
  - reflexivity.
  - unfold mapi. generalize 0. induction shown as [|t r IH]; intros n; simpl; [reflexivity|].
    now rewrite IH.
  - unfold formatGroupedByProject, groupedLines. fold shown. unfold groups, inbox.
    destruct (groupTasks shown); reflexivity.
  - apply groupTasks_size.
  - rewrite flatFooter_appears. apply exceeds_spec.
  - rewrite groupedFooter_appears. apply exceeds_spec.
Qed.

(** ** Grouping by project *)

Lemma streq_true_iff (a b : jsstring) : streq a b = true <-> a = b.
Proof.
  unfold streq. destruct (jsstring_eq_dec a b); split; congruence.
Qed.

Lemma streq_refl (a : jsstring) : streq a a = true.
Proof. now apply streq_true_iff. Qed.

Lemma streq_sym (a b : jsstring) : streq a b = streq b a.
Proof.
  unfold streq. destruct (jsstring_eq_dec a b), (jsstring_eq_dec b a); congruence.
Qed.

Lemma streq_false_iff (a b : jsstring) : streq a b = false <-> a <> b.
Proof.
  unfold streq. destruct (jsstring_eq_dec a b); split; congruence.
Qed.

Lemma existsb_streq_In (p : jsstring) (l : list jsstring) :
  existsb (fun k => streq k p) l = true <-> In p l.
Proof.
  rewrite existsb_exists. split.
  - intros [k [Hin Hk]]. apply streq_true_iff in Hk. now subst.
  - intros Hin. exists p. split; [exact Hin | apply streq_refl].
Qed.

Lemma In_firstSeen (x : jsstring) (ps : list jsstring) :
  In x (firstSeen ps) <-> In x ps.
Proof.
  forget_parameters.
  induction ps as [|p r IH]; simpl; [tauto|].
  rewrite filter_In, IH, negb_true_iff, streq_false_iff.
  destruct (jsstring_eq_dec p x); [tauto|].
  split; [tauto|]. intros [H|H]; [contradiction|]. right. split; [exact H | congruence].
Qed.

Lemma NoDup_firstSeen (ps : list jsstring) : NoDup (firstSeen ps).
Proof.
  forget_parameters.
  induction ps as [|p r IH]; simpl; constructor.
  - rewrite filter_In, negb_true_iff, streq_false_iff. tauto.
  - now apply NoDup_filter.
Qed.

Lemma firstSeen_snoc (ps : list jsstring) (p : jsstring) :
  firstSeen (ps ++ [p])
  = if existsb (fun k => streq k p) (firstSeen ps) then firstSeen ps else firstSeen ps ++ [p].
Proof.
  forget_parameters.
  induction ps as [|q r IH]; [reflexivity|].
  cbn [app firstSeen existsb]. rewrite IH.
  destruct (streq q p) eqn:Eqp; cbn [orb].
  - apply streq_true_iff in Eqp. subst q.
    destruct (existsb (fun k => streq k p) (firstSeen r)); [reflexivity|].
    rewrite filter_app. cbn [filter]. rewrite streq_refl. cbn [negb].
    now rewrite app_nil_r.
  - assert (Hex : existsb (fun k => streq k p) (filter (fun q' => negb (streq q' q)) (firstSeen r))
                  = existsb (fun k => streq k p) (firstSeen r)).
    { apply eq_true_iff_eq. rewrite !existsb_streq_In, filter_In, negb_true_iff, streq_false_iff.
      apply streq_false_iff in Eqp. split; [tauto|]. intros H. split; [exact H | congruence]. }
    rewrite Hex.
    destruct (existsb (fun k => streq k p) (firstSeen r)); [reflexivity|].
    rewrite filter_app. cbn [filter]. rewrite (streq_sym p q), Eqp. reflexivity.
Qed.

Lemma projectsOf_snoc (tasks : list Task.t) (task : Task.t) :
  projectsOf (tasks ++ [task])
  = projectsOf tasks ++ match projectOf task with Some p => [p] | None => [] end.
Proof.
  unfold projectsOf. induction tasks as [|t r IH]; simpl.
  - destruct (projectOf task); reflexivity.
  - rewrite IH. destruct (projectOf t); reflexivity.
Qed.

Lemma filter_inProject_absent (p : jsstring) (tasks : list Task.t) :
  ~ In p (projectsOf tasks) -> filter (inProject p) tasks = [].
Proof.
  forget_parameters.
  unfold projectsOf. induction tasks as [|t r IH]; simpl; [reflexivity|].
  unfold inProject at 1. destruct (projectOf t) as [q|]; simpl.
  - intros H. destruct (streq q p) eqn:E.
    + apply streq_true_iff in E. tauto.
    + apply IH. tauto.
  - exact IH.
Qed.

Lemma groups_has_keys (f : jsstring -> list Task.t) (keys : list jsstring) (p : jsstring) :
  groups_has (map (fun k => (k, f k)) keys) p = existsb (fun k => streq k p) keys.
Proof.
  induction keys as [|k r IH]; simpl; [reflexivity | now rewrite IH].
Qed.

Lemma groups_push_keys (f : jsstring -> list Task.t) (keys : list jsstring) (p : jsstring)
    (task : Task.t) :
  NoDup keys ->
  groups_push (map (fun k => (k, f k)) keys) p task
  = map (fun k => (k, if streq k p then push (f k) task else f k)) keys.
Proof.
  induction 1 as [|k r Hk Hr IH]; simpl; [reflexivity|].
  destruct (streq k p) eqn:E.
  - f_equal. apply map_ext_in. intros k' Hin.
    apply streq_true_iff in E. subst p.
    replace (streq k' k) with false; [reflexivity|].
    symmetry. apply streq_false_iff. congruence.
  - now rewrite IH.
Qed.

Lemma groupStep_spec (tasks : list Task.t) (task : Task.t) :
  groupStep (groupSpec tasks, filter noProject tasks) task
  = (groupSpec (tasks ++ [task]), filter noProject (tasks ++ [task])).
Proof.
  unfold groupStep, groupSpec.
  rewrite projectsOf_snoc, !filter_app. cbn [filter].
  change (truthy (Task.project task)) with (projectOf task).
  destruct (projectOf task) as [p|] eqn:Ep.
  - replace (noProject task) with false by (unfold noProject; now rewrite Ep).
    rewrite app_nil_r. f_equal.
    rewrite groups_has_keys, firstSeen_snoc.
    destruct (existsb (fun k => streq k p) (firstSeen (projectsOf tasks))) eqn:Eh; cbn [negb].
    + rewrite groups_push_keys by apply NoDup_firstSeen.
      apply map_ext. intros k. rewrite filter_app. cbn [filter].
      replace (inProject k task) with (streq k p)
        by (unfold inProject; now rewrite Ep, streq_sym).
      destruct (streq k p); [reflexivity | now rewrite app_nil_r].
    + assert (Hnot : ~ In p (projectsOf tasks)).
      { rewrite <- In_firstSeen, <- existsb_streq_In. congruence. }
      unfold groups_set_new.
      replace [(p, @nil Task.t)]
        with (map (fun k => (k, filter (inProject k) tasks)) [p])
        by (simpl; now rewrite filter_inProject_absent).
      rewrite <- map_app.
      rewrite groups_push_keys.
      * apply map_ext. intros k. rewrite filter_app. cbn [filter].
        replace (inProject k task) with (streq k p)
        by (unfold inProject; now rewrite Ep, streq_sym).
        destruct (streq k p); [reflexivity | now rewrite app_nil_r].
      * pose proof (NoDup_firstSeen (projectsOf tasks ++ [p])) as Hnd.
        now rewrite firstSeen_snoc, Eh in Hnd.
  - replace (noProject task) with true by (unfold noProject; now rewrite Ep).
    rewrite app_nil_r. unfold push. f_equal.
    apply map_ext. intros k. rewrite filter_app. cbn [filter].
    replace (inProject k task) with false by (unfold inProject; now rewrite Ep).
    now rewrite app_nil_r.
Qed.

Lemma fold_groupStep_spec (rest done : list Task.t) :
  fold_left groupStep rest (groupSpec done, filter noProject done)
  = (groupSpec (done ++ rest), filter noProject (done ++ rest)).
Proof.
  revert done. induction rest as [|t r IH]; intros done; cbn [fold_left].
  - now rewrite app_nil_r.
  - rewrite groupStep_spec, IH, <- app_assoc. reflexivity.
Qed.

(** The loop of the source computes the grouping stated over the
    sequence. *)
Lemma groupTasks_spec (tasks : list Task.t) :
  groupTasks tasks = (groupSpec tasks, filter noProject tasks).
Proof. exact (fold_groupStep_spec tasks []). Qed.

Lemma filter_split {A : Type} (f : A -> bool) (l l1 rest : list A) (p : A) :
  filter f l = l1 ++ p :: rest ->
  exists m1 m2, l = m1 ++ p :: m2 /\ filter f m1 = l1 /\ filter f m2 = rest.
Proof.
  revert l1. induction l as [|x r IH]; intros l1 H; simpl in H.
  - destruct l1; discriminate.
  - destruct (f x) eqn:E.
    + destruct l1 as [|y l1']; simpl in H; inversion H; subst.
      * exists [], r. now repeat split.
      * destruct (IH l1' H2) as [m1 [m2 [Hr [H1 Hm2]]]].
        exists (y :: m1), m2. subst r. simpl. rewrite E, H1. now repeat split.
    + destruct (IH l1 H) as [m1 [m2 [Hr [H1 Hm2]]]].
      exists (x :: m1), m2. subst r. simpl. rewrite E. now repeat split.
Qed.

(** Whatever comes before the first occurrence of [p] in [ps] stands
    before [p] in [firstSeen ps]. *)
Lemma firstSeen_order (ps l1 rest : list jsstring) (p : jsstring) :
  firstSeen ps = l1 ++ p :: rest ->
  exists a b, ps = a ++ p :: b /\ forall x, In x a -> In x l1.
Proof.
  revert l1 rest. induction ps as [|x r IH]; intros l1 rest H; simpl in H.
  - destruct l1; discriminate.
  - destruct l1 as [|y l1']; simpl in H; inversion H; subst.
    + exists [], r. split; [reflexivity | intros ? []].
    + destruct (filter_split _ _ _ _ _ H2) as [m1 [m2 [Hr [H1 _]]]].
      destruct (IH m1 m2 Hr) as [a [b [Eps Ha]]].
      exists (y :: a), b. split; [now subst r|].
      intros z [Hz|Hz]; [now left|].
      destruct (jsstring_eq_dec z y) as [E|E]; [now left|].
      right. rewrite <- H1. apply filter_In. split; [now apply Ha|].
      apply negb_true_iff, streq_false_iff. exact E.
Qed.

Lemma filter_inProject_present (p : jsstring) (tasks : list Task.t) :
  In p (projectsOf tasks) -> filter (inProject p) tasks <> [].
Proof.
  forget_parameters.
  unfold projectsOf. induction tasks as [|t r IH]; simpl; [tauto|].
  unfold inProject at 1. destruct (projectOf t) as [q|]; simpl.
  - intros [H|H].
    + subst q. rewrite streq_refl. discriminate.
    + destruct (streq q p); [discriminate | now apply IH].
  - exact IH.
Qed.

(** C8: the buckets of the grouped renderer are keyed by the
    distinct projects of the displayed tasks in order of first
    occurrence; the bucket of a project holds the displayed tasks of
    that project in their original order, under one heading; the
    tasks without a project form the inbox, whose lines come after
    those of every bucket and only when there is such a task; the
    project count of the summary is the number of buckets. *)
Theorem grouping_first_seen_order (perspectiveName : jsstring) (tasks : list Task.t)
    (limit : Z) (totalCount : option Z) :
  let shown := displayTasks tasks limit in
  let groups := fst (groupTasks shown) in
  let inbox := snd (groupTasks shown) in
  map fst groups = firstSeen (projectsOf shown)
  /\ (forall l1 p rest, map fst groups = l1 ++ p :: rest ->
        exists a b, projectsOf shown = a ++ p :: b /\ forall x, In x a -> In x l1)
  /\ NoDup (map fst groups)
  /\ (forall p bucket, In (p, bucket) groups ->
        bucket = filter (inProject p) shown /\ bucket <> [])
  /\ inbox = filter noProject shown
  /\ formatGroupedByProject perspectiveName tasks limit totalCount
     = groupedHeader perspectiveName (length shown) (length (firstSeen (projectsOf shown)))
         ++ join nl (flat_map bucketLines groups ++ inboxLines inbox)
         ++ groupedFooter totalCount (length shown)
  /\ (forall p bucket,
        bucketLines (p, bucket)
        = (nl ++ js "### 📁 " ++ p) :: [] :: map formatTaskForGroup bucket)
  /\ (inbox = [] -> inboxLines inbox = [])
  /\ (inbox <> [] ->
        inboxLines inbox = (nl ++ js "### 📥 收件箱") :: [] :: map formatTaskForGroup inbox).
Proof.
  intros shown groups inbox.
  assert (Hg : groups = groupSpec shown) by (unfold groups; now rewrite groupTasks_spec).
  assert (Hi : inbox = filter noProject shown) by (unfold inbox; now rewrite groupTasks_spec).
  assert (Hk : map fst groups = firstSeen (projectsOf shown)).
  { rewrite Hg. unfold groupSpec. rewrite map_map. simpl. apply map_id. }
  refine (conj Hk (conj _ (conj _ (conj _ (conj Hi (conj _ (conj _ (conj _ _)))))))).
  - intros l1 p rest H. rewrite Hk in H. now apply firstSeen_order in H.
  - rewrite Hk. apply NoDup_firstSeen.
  - intros p bucket Hin. rewrite Hg in Hin. unfold groupSpec in Hin.
    apply in_map_iff in Hin. destruct Hin as [k [E Hin]]. inversion E; subst p bucket.
    split; [reflexivity|]. apply filter_inProject_present. now apply In_firstSeen.
  - unfold formatGroupedByProject, groupedLines. fold shown.
    rewrite <- Hk, length_map. unfold groups, inbox.
    destruct (groupTasks shown); reflexivity.
  - reflexivity.
  - intros E. now rewrite E.
  - intros E. destruct inbox; [congruence | reflexivity].
Qed.

(** ** The tree walk and its call trace *)

Lemma forEachIdx_collect {A B : Type}
    (f : A -> nat -> list jsstring -> option (list jsstring))
    (h : A -> nat -> option (list B)) (g : B -> list jsstring) (arr : list A) :
  (forall x i ls, In x arr -> f x i ls = option_map (fun vs => ls ++ flat_map g vs) (h x i)) ->
  forall i ls,
    forEachIdx f arr i ls = option_map (fun vs => ls ++ flat_map g vs) (collectIdx h arr i).
Proof.
  induction arr as [|x r IH]; intros Hf i ls; simpl.
  - now rewrite app_nil_r.
  - rewrite Hf by now left.
    destruct (h x i) as [here|]; simpl; [|reflexivity].
    rewrite IH by (intros; apply Hf; now right).
    destruct (collectIdx h r (S i)) as [there|]; simpl; [|reflexivity].
    now rewrite flat_map_app, app_assoc.
Qed.

Lemma visits_S (fuel : nat) (taskMap : TaskMap) (hideCompleted : bool) (task : Task.t)
    (prefix : jsstring) (isLast : bool) :
  visits (S fuel) taskMap hideCompleted task prefix isLast
  = option_map (cons (mkVisit task prefix isLast))
      (collectIdx
         (fun c index =>
            visits fuel taskMap hideCompleted c (prefix ++ continuation isLast)
              (Nat.eqb index (length (childTasks taskMap hideCompleted task) - 1)))
         (childTasks taskMap hideCompleted task) 0).
Proof. reflexivity. Qed.

Lemma childTasks_no_children (taskMap : TaskMap) (hideCompleted : bool) (task : Task.t) :
  Task.children task = [] -> childTasks taskMap hideCompleted task = [].
Proof. intros H. unfold childTasks. now rewrite H. Qed.

(** What a call appends to [lines] is the lines of its visits. *)
Lemma renderTaskTree_visits (taskMap : TaskMap) (hideCompleted : bool) (fuel : nat) :
  forall task prefix isLast lines,
    renderTaskTree fuel task taskMap hideCompleted prefix isLast lines
    = option_map (fun vs => lines ++ flat_map visitLines vs)
        (visits fuel taskMap hideCompleted task prefix isLast).
Proof.
  induction fuel as [|fuel IH]; intros task prefix isLast lines; [reflexivity|].
  rewrite visits_S. cbn [renderTaskTree]. rewrite fold_push_map.
  destruct (Task.children task) eqn:Ec.
  - rewrite (childTasks_no_children _ _ _ Ec). simpl.
    unfold push, visitLines. simpl. now rewrite app_nil_r, <- app_assoc.
  - rewrite (forEachIdx_collect _
               (fun c index =>
                  visits fuel taskMap hideCompleted c (prefix ++ continuation isLast)
                    (Nat.eqb index (length (childTasks taskMap hideCompleted task) - 1)))
               visitLines)
      by (intros; apply IH).
    destruct (collectIdx _ (childTasks taskMap hideCompleted task) 0); simpl; [|reflexivity].
    unfold push, visitLines. simpl. now rewrite <- !app_assoc.
Qed.

Lemma renderRoots_visits (taskMap : TaskMap) (hideCompleted : bool) (fuel : nat)
    (roots : list Task.t) :
  renderRoots fuel taskMap hideCompleted roots
  = option_map (flat_map visitLines) (visitsRoots fuel taskMap hideCompleted roots).
Proof.
  unfold renderRoots, visitsRoots.
  rewrite (forEachIdx_collect _
             (fun r index =>
                visits fuel taskMap hideCompleted r [] (Nat.eqb index (length roots - 1)))
             visitLines)
    by (intros; apply renderTaskTree_visits).
  now destruct (collectIdx _ roots 0).
Qed.

(** More fuel does not change a result. *)
Lemma collectIdx_mono {A B : Type} (h1 h2 : A -> nat -> option (list B)) (arr : list A) :
  (forall x i vs, In x arr -> h1 x i = Some vs -> h2 x i = Some vs) ->
  forall i vs, collectIdx h1 arr i = Some vs -> collectIdx h2 arr i = Some vs.
Proof.
  induction arr as [|x r IH]; intros H i vs; simpl; [trivial|].
  destruct (h1 x i) as [here|] eqn:E1; [|discriminate].
  rewrite (H x i here (or_introl eq_refl) E1).
  destruct (collectIdx h1 r (S i)) as [there|] eqn:E2; [|discriminate].
  rewrite (IH (fun y j ws Hy => H y j ws (or_intror Hy)) (S i) there E2).
  trivial.
Qed.

Lemma visits_mono (taskMap : TaskMap) (hideCompleted : bool) (fuel fuel' : nat) :
  fuel <= fuel' ->
  forall task prefix isLast vs,
    visits fuel taskMap hideCompleted task prefix isLast = Some vs ->
    visits fuel' taskMap hideCompleted task prefix isLast = Some vs.
Proof.
  revert fuel'. induction fuel as [|fuel IH]; intros fuel' Hle task prefix isLast vs H;
    [discriminate|].
  destruct fuel' as [|fuel']; [lia|].
  rewrite visits_S in H |- *.
  destruct (collectIdx _ (childTasks taskMap hideCompleted task) 0) as [sub|] eqn:E in H;
    [|discriminate].
  erewrite collectIdx_mono; [exact H | | exact E].
  intros c i ws _ Hc. apply (IH fuel'); [lia | exact Hc].
Qed.

Lemma visitsRoots_mono (taskMap : TaskMap) (hideCompleted : bool) (fuel fuel' : nat)
    (roots : list Task.t) (vs : list Visit) :
  fuel <= fuel' ->
  visitsRoots fuel taskMap hideCompleted roots = Some vs ->
  visitsRoots fuel' taskMap hideCompleted roots = Some vs.
Proof.
  intros Hle. unfold visitsRoots. apply collectIdx_mono.
  intros r i ws _. now apply visits_mono.
Qed.

(** *** Enough fuel on a well-founded map *)

Lemma collectIdx_total {A B : Type} (h : A -> nat -> option (list B)) (arr : list A) :
  (forall x i, In x arr -> exists vs, h x i = Some vs) ->
  forall i, exists vs, collectIdx h arr i = Some vs.
Proof.
  induction arr as [|x r IH]; intros H i; simpl; [now exists []|].
  destruct (H x i (or_introl eq_refl)) as [here E1]. rewrite E1.
  destruct (IH (fun y j Hy => H y j (or_intror Hy)) (S i)) as [there E2]. rewrite E2.
  now eexists.
Qed.

Lemma lookup_In_values (taskMap : TaskMap) (key : jsstring) (task : Task.t) :
  lookup taskMap key = Some task -> In task (Object_values taskMap).
Proof.
  induction taskMap as [|[k v] r IH]; simpl; [discriminate|].
  destruct (streq k key).
  - intros E. inversion E. now left.
  - intros E. right. now apply IH.
Qed.

Lemma In_somes {A : Type} (x : A) (l : list (option A)) : In x (somes l) <-> In (Some x) l.
Proof.
  induction l as [|[y|] r IH]; simpl; [tauto | |].
  - rewrite IH. split; intros [H|H]; auto; left; congruence.
  - rewrite IH. split; [tauto|]. intros [H|H]; [discriminate | exact H].
Qed.

Lemma In_childTasks (taskMap : TaskMap) (hideCompleted : bool) (task c : Task.t) :
  In c (childTasks taskMap hideCompleted task)
  <-> exists cid,
        In cid (Task.children task) /\ lookup taskMap cid = Some c
        /\ (hideCompleted = true -> Task.completed c = false).
Proof.
  unfold childTasks. rewrite In_somes, filter_In, in_map_iff. unfold keepChild.
  split.
  - intros [[cid [E Hin]] Hk]. exists cid. repeat split; auto.
    intros Hh. rewrite Hh in Hk. simpl in Hk. now apply negb_true_iff.
  - intros [cid [Hin [E Hc]]]. split; [now exists cid|].
    destruct hideCompleted; [|reflexivity]. simpl. now rewrite Hc.
Qed.

Lemma wellFoundedBy_child (taskMap : TaskMap) (rank : Task.t -> nat) (hideCompleted : bool)
    (task c : Task.t) :
  wellFoundedBy taskMap rank = true ->
  In task (Object_values taskMap) ->
  In c (childTasks taskMap hideCompleted task) ->
  In c (Object_values taskMap) /\ rank c < rank task.
Proof.
  intros Hwf Hin Hc. apply In_childTasks in Hc. destruct Hc as [cid [Hcid [Hl _]]].
  split; [now apply lookup_In_values in Hl|].
  unfold wellFoundedBy in Hwf. rewrite forallb_forall in Hwf.
  specialize (Hwf task Hin). rewrite forallb_forall in Hwf.
  specialize (Hwf cid Hcid). rewrite Hl in Hwf. now apply Nat.ltb_lt.
Qed.

Lemma visits_enough_fuel (taskMap : TaskMap) (rank : Task.t -> nat) (hideCompleted : bool) :
  wellFoundedBy taskMap rank = true ->
  forall fuel task prefix isLast,
    In task (Object_values taskMap) -> rank task < fuel ->
    exists vs, visits fuel taskMap hideCompleted task prefix isLast = Some vs.
Proof.
  intros Hwf. induction fuel as [|fuel IH]; intros task prefix isLast Hin Hr; [lia|].
  rewrite visits_S.
  destruct (collectIdx_total
              (fun c index =>
                 visits fuel taskMap hideCompleted c (prefix ++ continuation isLast)
                   (Nat.eqb index (length (childTasks taskMap hideCompleted task) - 1)))
              (childTasks taskMap hideCompleted task)) with (i := 0) as [sub E].
  - intros c i Hc.
    destruct (wellFoundedBy_child _ _ _ _ _ Hwf Hin Hc) as [Hcin Hlt].
    apply IH; [exact Hcin | lia].
  - rewrite E. now eexists.
Qed.

Lemma filteredRootTasks_spec (taskMap : TaskMap) (hideCompleted : bool) :
  filteredRootTasks taskMap hideCompleted
  = filter (fun t => isRoot t && (negb hideCompleted || negb (Task.completed t)))
      (Object_values taskMap).
Proof.
  unfold filteredRootTasks, rootTasks.
  induction (Object_values taskMap) as [|t r IH]; destruct hideCompleted; simpl in *;
    try reflexivity.
  - destruct (isRoot t); simpl; [|exact IH].
    destruct (Task.completed t); simpl; now rewrite IH.
  - destruct (isRoot t); simpl; now rewrite IH.
Qed.

Lemma filteredRootTasks_In_values (taskMap : TaskMap) (hideCompleted : bool) (t : Task.t) :
  In t (filteredRootTasks taskMap hideCompleted) -> In t (Object_values taskMap).
Proof. rewrite filteredRootTasks_spec, filter_In. tauto. Qed.

Lemma rank_below_max (rank : Task.t -> nat) (l : list Task.t) (t : Task.t) :
  In t l -> rank t <= list_max (map rank l).
Proof.
  intros H. induction l as [|x r IH]; [contradiction|].
  change (rank t <= Nat.max (rank x) (list_max (map rank r))).
  destruct H as [H|H].
  - subst x. apply Nat.le_max_l.
  - etransitivity; [exact (IH H) | apply Nat.le_max_r].
Qed.

(** On a well-founded map the walk over the roots returns, and
    returns the same with any larger fuel. *)
Lemma visitsRoots_returns (taskMap : TaskMap) (rank : Task.t -> nat) (hideCompleted : bool) :
  wellFoundedBy taskMap rank = true ->
  exists fuel vs,
    forall fuel', fuel <= fuel' ->
      visitsRoots fuel' taskMap hideCompleted (filteredRootTasks taskMap hideCompleted)
      = Some vs.
Proof.
  intros Hwf.
  exists (S (list_max (map rank (Object_values taskMap)))).
  destruct (collectIdx_total
              (fun r index =>
                 visits (S (list_max (map rank (Object_values taskMap)))) taskMap
                   hideCompleted r []
                   (Nat.eqb index (length (filteredRootTasks taskMap hideCompleted) - 1)))
              (filteredRootTasks taskMap hideCompleted)) with (i := 0) as [vs E].
  - intros r i Hr. apply filteredRootTasks_In_values in Hr.
    apply (visits_enough_fuel taskMap rank hideCompleted Hwf); [exact Hr|].
    pose proof (rank_below_max rank _ _ Hr). lia.
  - exists vs. intros fuel' Hle. now apply (visitsRoots_mono _ _ _ _ _ _ Hle).
Qed.


(** *** Counting the visits *)

Lemma childReferences_app (taskMap : TaskMap) (hideCompleted : bool) (x : Task.t)
    (vs ws : list Visit) :
  childReferences taskMap hideCompleted x (vs ++ ws)
  = childReferences taskMap hideCompleted x vs + childReferences taskMap hideCompleted x ws.
Proof. unfold childReferences. now rewrite map_app, list_sum_app. Qed.

Lemma collectIdx_count (taskMap : TaskMap) (hideCompleted : bool) (x : Task.t)
    (h : Task.t -> nat -> option (list Visit)) (arr : list Task.t) :
  (forall c i vs, h c i = Some vs ->
     count_occ Task_eq_dec (map v_task vs) x
     = count_occ Task_eq_dec [c] x + childReferences taskMap hideCompleted x vs) ->
  forall i vs, collectIdx h arr i = Some vs ->
    count_occ Task_eq_dec (map v_task vs) x
    = count_occ Task_eq_dec arr x + childReferences taskMap hideCompleted x vs.
Proof.
  intros Hh. induction arr as [|c r IH]; intros i vs H; simpl in H.
  - inversion H. reflexivity.
  - destruct (h c i) as [here|] eqn:E1; [|discriminate].
    destruct (collectIdx h r (S i)) as [there|] eqn:E2; [|discriminate].
    inversion H; subst vs.
    rewrite map_app, count_occ_app, childReferences_app.
    rewrite (Hh c i here E1), (IH (S i) there E2).
    change (c :: r) with ([c] ++ r). rewrite count_occ_app. lia.
Qed.

Lemma visits_count (taskMap : TaskMap) (hideCompleted : bool) (x : Task.t) (fuel : nat) :
  forall task prefix isLast vs,
    visits fuel taskMap hideCompleted task prefix isLast = Some vs ->
    count_occ Task_eq_dec (map v_task vs) x
    = count_occ Task_eq_dec [task] x + childReferences taskMap hideCompleted x vs.
Proof.
  induction fuel as [|fuel IH]; intros task prefix isLast vs H; [discriminate|].
  rewrite visits_S in H.
  destruct (collectIdx _ (childTasks taskMap hideCompleted task) 0) as [sub|] eqn:E;
    [|discriminate].
  inversion H; subst vs.
  apply (collectIdx_count taskMap hideCompleted x) in E; [|intros c i ws; apply IH].
  change (mkVisit task prefix isLast :: sub) with ([mkVisit task prefix isLast] ++ sub).
  rewrite map_app, count_occ_app, childReferences_app, E.
  change (childReferences taskMap hideCompleted x [mkVisit task prefix isLast])
    with (count_occ Task_eq_dec (childTasks taskMap hideCompleted task) x + 0).
  change (map v_task [mkVisit task prefix isLast]) with [task].
  lia.
Qed.

(** C3, as the code has it: on a well-founded map the lines of the
    tree are those of the visits, each visit giving the task's line
    and then its detail lines, and a task is visited once for each
    of its occurrences among the filtered roots and once for each of
    its occurrences in the filtered child list of a visited task.
    Nothing removes a task that is reached in both ways. *)
Theorem visits_counted_by_references (taskMap : TaskMap) (hideCompleted : bool)
    (rank : Task.t -> nat) :
  wellFoundedBy taskMap rank = true ->
  let roots := filteredRootTasks taskMap hideCompleted in
  exists fuel vs,
    (forall fuel', fuel <= fuel' ->
       renderRoots fuel' taskMap hideCompleted roots = Some (flat_map visitLines vs))
    /\ forall x,
         count_occ Task_eq_dec (map v_task vs) x
         = count_occ Task_eq_dec roots x + childReferences taskMap hideCompleted x vs.
Proof.
  intros Hwf roots.
  destruct (visitsRoots_returns taskMap rank hideCompleted Hwf) as [fuel [vs Hvs]].
  exists fuel, vs. split.
  - intros fuel' Hle. rewrite renderRoots_visits. unfold roots. now rewrite (Hvs fuel' Hle).
  - intros x. specialize (Hvs fuel (Nat.le_refl _)). unfold visitsRoots in Hvs.
    apply (collectIdx_count taskMap hideCompleted x) in Hvs; [exact Hvs|].
    intros c i ws. apply visits_count.
Qed.

(** ** The root set *)

(** C6, as the code has it: the roots are the records whose [parent]
    is [null], in the order of the map, without the completed ones
    when [hideCompleted] is set.  A record whose [parent] field is
    missing is not among them; when no record has a [null] parent
    the renderer gives the line that says there is no root task. *)
Theorem root_set_is_null_parent (perspectiveName : jsstring) (taskMap : TaskMap)
    (hideCompleted : bool) :
  filteredRootTasks taskMap hideCompleted
  = filter (fun t => isRoot t && (negb hideCompleted || negb (Task.completed t)))
      (Object_values taskMap)
  /\ (forall t,
        In t (filteredRootTasks taskMap hideCompleted)
        <-> In t (Object_values taskMap) /\ Task.parent t = ParentNull
            /\ (hideCompleted = true -> Task.completed t = false))
  /\ (forall t, Task.parent t = ParentAbsent ->
        ~ In t (filteredRootTasks taskMap hideCompleted))
  /\ ((forall t, In t (Object_values taskMap) -> Task.parent t <> ParentNull) ->
      forall fuel,
        formatHierarchicalTasks fuel perspectiveName taskMap hideCompleted
        = Some (hierarchyHeader perspectiveName ++ js "暂无"
                  ++ (if hideCompleted then js "未完成" else []) ++ js "根任务。")).
Proof.
  forget_parameters.
  assert (Hiff : forall t,
             In t (filteredRootTasks taskMap hideCompleted)
             <-> In t (Object_values taskMap) /\ Task.parent t = ParentNull
                 /\ (hideCompleted = true -> Task.completed t = false)).
  { intros t. rewrite filteredRootTasks_spec, filter_In, andb_true_iff.
    unfold isRoot. destruct (Task.parent t), hideCompleted, (Task.completed t); simpl;
      intuition congruence. }
  refine (conj (filteredRootTasks_spec _ _) (conj Hiff (conj _ _))).
  - intros t Hp Hin. apply Hiff in Hin. destruct Hin as [_ [Hn _]]. congruence.
  - intros Hnone fuel. unfold formatHierarchicalTasks.
    destruct (filteredRootTasks taskMap hideCompleted) as [|t r] eqn:E; [reflexivity|].
    exfalso. destruct (proj1 (Hiff t) (or_introl eq_refl)) as [Hv [Hp _]].
    exact (Hnone t Hv Hp).
Qed.

(** ** The children of a node *)




Lemma visits_head (taskMap : TaskMap) (hideCompleted : bool) (fuel : nat) (c : Task.t)
    (prefix : jsstring) (isLast : bool) (ws : list Visit) :
  visits fuel taskMap hideCompleted c prefix isLast = Some ws ->
  exists rest, ws = mkVisit c prefix isLast :: rest.
Proof.
  destruct fuel as [|fuel]; [discriminate|]. rewrite visits_S.
  destruct (collectIdx _ _ 0) as [sub|]; [|discriminate].
  intros H. inversion H. now exists sub.
Qed.

Lemma collectIdx_heads {A B : Type} (h : A -> nat -> option (list B)) (V : A -> nat -> B)
    (arr : list A) :
  (forall c j ws, h c j = Some ws -> exists rest, ws = V c j :: rest) ->
  forall i sub, collectIdx h arr i = Some sub ->
    exists subs,
      sub = concat subs /\ length subs = length arr
      /\ forall k c, nth_error arr k = Some c ->
           exists rest, nth_error subs k = Some (V c (i + k) :: rest).
Proof.
  intros Hh. induction arr as [|x r IH]; intros i sub H; simpl in H.
  - inversion H. exists []. repeat split. intros [|k] c; discriminate.
  - destruct (h x i) as [here|] eqn:E1; [|discriminate].
    destruct (collectIdx h r (S i)) as [there|] eqn:E2; [|discriminate].
    inversion H; subst sub.
    destruct (IH (S i) there E2) as [subs [Ec [El Hn]]].
    exists (here :: subs). simpl. rewrite Ec, El. repeat split.
    intros [|k] c Hk; simpl in *.
    + inversion Hk; subst c. destruct (Hh x i here E1) as [rest Er].
      exists rest. now rewrite Nat.add_0_r, Er.
    + destruct (Hn k c Hk) as [rest Er]. exists rest.
      now rewrite Nat.add_succ_r.
Qed.


(** ** The orchestrator *)

Lemma getCustomPerspectiveTasks_named (fuel : nat)
    (options : GetCustomPerspectiveTasksOptions) (result : ScriptResult) :
  perspectiveName options <> [] ->
  getCustomPerspectiveTasks fuel options result
  = match
      tryBlock fuel (perspectiveName options) (withDefault true (hideCompleted options))
        (withDefault 1000%Z (limit options)) (withDefault false (showHierarchy options))
        (withDefault true (groupByProject options)) result
    with
    | None => None
    | Some (Normal text) => Some text
    | Some (Thrown e) => Some (js "❌ **错误**: " ++ errorText e)
    end.
Proof.
  intros H. unfold getCustomPerspectiveTasks.
  destruct (perspectiveName options); [congruence | reflexivity].
Qed.

(** C5: once the result is decoded, reports success and leaves a
    task to show, one renderer gives the answer: the tree renderer
    when [showHierarchy] is set, whatever [groupByProject] is; else
    the grouped renderer when [groupByProject] is set (as it is by
    default); else the flat renderer. *)
Theorem exactly_one_render_mode (fuel : nat) (options : GetCustomPerspectiveTasksOptions)
    (result : ScriptResult) (data : Payload) :
  perspectiveName options <> [] ->
  decodeResult result = Normal data ->
  success data = true ->
  let hide := withDefault true (hideCompleted options) in
  let map := withDefault [] (taskMap data) in
  let hierarchy := withDefault false (showHierarchy options) in
  let grouping := withDefault true (groupByProject options) in
  filteredTasksOf hide map <> [] ->
  getCustomPerspectiveTasks fuel options result
  = renderWith (chosenMode hierarchy grouping) fuel (perspectiveName options) map
      (filteredTasksOf hide map) hide (withDefault 1000%Z (limit options)) (count data)
  /\ (hierarchy = true -> chosenMode hierarchy grouping = Hierarchical)
  /\ (hierarchy = false -> grouping = true ->
        chosenMode hierarchy grouping = GroupedByProject)
  /\ (hierarchy = false -> grouping = false -> chosenMode hierarchy grouping = Flat).
Proof.
  intros Hname Hdata Hok hide map hierarchy grouping Hsome.
  split;
    [|unfold chosenMode; repeat split; intros H1; try intros H2;
      rewrite H1; try rewrite H2; reflexivity].
  rewrite getCustomPerspectiveTasks_named by exact Hname.
  unfold tryBlock. rewrite Hdata, Hok. cbn [negb].
  fold hide map hierarchy grouping.
  change (if hide
          then filter (fun task => negb (Task.completed task)) (Object_values map)
          else Object_values map)
    with (filteredTasksOf hide map).
  destruct (filteredTasksOf hide map) as [|t r]; [congruence|].
  unfold chosenMode, renderWith.
  destruct hierarchy; [|destruct grouping; reflexivity].
  now destruct (formatHierarchicalTasks fuel (perspectiveName options) map hide).
Qed.

(** C9, as the code has it: an empty name gives the validation
    message whatever else is passed; with a name, a string that does
    not parse, a result that is neither a string nor an object, a
    rejected call and a result whose [success] is false all give a
    text that starts with the error marker, and so does any [throw]
    of the [try] block.  The collaborator's message is shown as it
    is when it is present and not empty; when it is missing or empty
    the generic message stands in. *)
Theorem failures_become_error_strings (fuel : nat)
    (options : GetCustomPerspectiveTasksOptions) (result : ScriptResult) :
  let answer := getCustomPerspectiveTasks fuel options result in
  let marker := js "❌ **错误**: " in
  (perspectiveName options = [] -> answer = Some (marker ++ js "透视名称不能为空"))
  /\ (perspectiveName options <> [] ->
      (forall raw, result = ResultString raw -> JSON_parse raw = None ->
         answer = Some (marker ++ js "解析字符串结果失败: " ++ raw))
      /\ (forall typeofResult shown, result = ResultOther typeofResult shown ->
            answer = Some (marker ++ js "脚本执行返回了无效的结果类型: " ++ typeofResult
                             ++ js ", 值: " ++ shown))
      /\ (forall e, result = ScriptRejected e -> answer = Some (marker ++ errorText e))
      /\ (forall data, decodeResult result = Normal data -> success data = false ->
            (forall message, error data = Some message -> message <> [] ->
               answer = Some (marker ++ message))
            /\ (error data = None \/ error data = Some [] ->
                answer = Some (marker ++ js "Unknown error occurred")))
      /\ (forall e,
            tryBlock fuel (perspectiveName options)
              (withDefault true (hideCompleted options))
              (withDefault 1000%Z (limit options))
              (withDefault false (showHierarchy options))
              (withDefault true (groupByProject options)) result
            = Some (Thrown e) ->
            answer = Some (marker ++ errorText e))).
Proof.
  intros answer marker. split.
  - intros H. unfold answer, getCustomPerspectiveTasks. rewrite H. reflexivity.
  - intros Hname. unfold answer. rewrite getCustomPerspectiveTasks_named by exact Hname.
    refine (conj _ (conj _ (conj _ (conj _ _)))).
    + intros raw Hr Hp. subst result. unfold tryBlock, decodeResult. now rewrite Hp.
    + intros ty shown Hr. subst result. reflexivity.
    + intros e Hr. subst result. reflexivity.
    + intros data Hd Hs. unfold tryBlock. rewrite Hd, Hs. cbn [negb]. split.
      * intros message Hm Hne. rewrite Hm, (truthy_nonempty message Hne). reflexivity.
      * intros [H|H]; rewrite H; reflexivity.
    + intros e He. now rewrite He.
Qed.

(** * Further properties of the renderers *)

(** ** What the tree walk visits *)

Lemma collectIdx_Forall {A B : Type} (P : B -> Prop) (h : A -> nat -> option (list B))
    (arr : list A) :
  (forall x i ws, In x arr -> h x i = Some ws -> Forall P ws) ->
  forall i vs, collectIdx h arr i = Some vs -> Forall P vs.
Proof.
  induction arr as [|x r IH]; intros Hh i vs H; simpl in H.
  - inversion H. constructor.
  - destruct (h x i) as [here|] eqn:E1; [|discriminate].
    destruct (collectIdx h r (S i)) as [there|] eqn:E2; [|discriminate].
    inversion H; subst vs. apply Forall_app. split.
    + exact (Hh x i here (or_introl eq_refl) E1).
    + apply (IH (fun y j ws Hy => Hh y j ws (or_intror Hy)) (S i) there E2).
Qed.

Lemma visits_Forall (taskMap : TaskMap) (hideCompleted : bool) (P : Task.t -> Prop) :
  (forall t c, P t -> In c (childTasks taskMap hideCompleted t) -> P c) ->
  forall fuel task prefix isLast vs,
    P task ->
    visits fuel taskMap hideCompleted task prefix isLast = Some vs ->
    Forall (fun v => P (v_task v)) vs.
Proof.
  intros Hstep. induction fuel as [|fuel IH]; intros task prefix isLast vs Hp H;
    [discriminate|].
  rewrite visits_S in H.
  destruct (collectIdx _ (childTasks taskMap hideCompleted task) 0) as [sub|] eqn:E;
    [|discriminate].
  inversion H; subst vs. constructor; [exact Hp|].
  apply (collectIdx_Forall _ _ _ (fun c i ws Hc Hv => IH c _ _ ws (Hstep task c Hp Hc) Hv) 0 sub E).
Qed.

Lemma renderRoots_Forall (taskMap : TaskMap) (hideCompleted : bool) (P : Task.t -> Prop)
    (fuel : nat) (lines : list jsstring) :
  (forall t c, P t -> In c (childTasks taskMap hideCompleted t) -> P c) ->
  (forall r, In r (filteredRootTasks taskMap hideCompleted) -> P r) ->
  renderRoots fuel taskMap hideCompleted (filteredRootTasks taskMap hideCompleted)
  = Some lines ->
  exists vs, lines = flat_map visitLines vs /\ Forall (fun v => P (v_task v)) vs.
Proof.
  intros Hstep Hroots H. rewrite renderRoots_visits in H.
  destruct (visitsRoots fuel taskMap hideCompleted (filteredRootTasks taskMap hideCompleted))
    as [vs|] eqn:E; [|discriminate].
  inversion H. exists vs. split; [reflexivity|].
  unfold visitsRoots in E.
  apply (collectIdx_Forall _ _ _
           (fun r i ws Hr Hv => visits_Forall taskMap hideCompleted P Hstep fuel r _ _ ws
                                  (Hroots r Hr) Hv) 0 vs E).
Qed.

(** With [hideCompleted], no line of the tree belongs to a completed
    task: every visit is that of a task that is not completed. *)
Theorem tree_hides_completed_tasks (taskMap : TaskMap) (fuel : nat) (lines : list jsstring) :
  renderRoots fuel taskMap true (filteredRootTasks taskMap true) = Some lines ->
  exists vs,
    lines = flat_map visitLines vs
    /\ Forall (fun v => Task.completed (v_task v) = false) vs.
Proof.
  apply (renderRoots_Forall taskMap true (fun t => Task.completed t = false)).
  - intros t c _ Hc. apply In_childTasks in Hc. destruct Hc as [cid [_ [_ Hc]]]. now apply Hc.
  - intros r Hr. rewrite filteredRootTasks_spec in Hr. apply filter_In in Hr.
    destruct Hr as [_ Hr]. apply andb_true_iff in Hr. destruct Hr as [_ Hr].
    simpl in Hr. now apply negb_true_iff.
Qed.


(** The roots are rendered in the order of the map, each at the left
    margin, and the one that stands last among them is the one with
    the last-sibling connector. *)
Theorem roots_rendered_in_map_order (taskMap : TaskMap) (hideCompleted : bool) (fuel : nat)
    (lines : list jsstring) :
  let roots := filteredRootTasks taskMap hideCompleted in
  renderRoots fuel taskMap hideCompleted roots = Some lines ->
  exists subs,
    lines = flat_map visitLines (concat subs)
    /\ length subs = length roots
    /\ forall i r, nth_error roots i = Some r ->
         exists rest,
           nth_error subs i = Some (mkVisit r [] (Nat.eqb i (length roots - 1)) :: rest).
Proof.
  intros roots H. rewrite renderRoots_visits in H.
  destruct (visitsRoots fuel taskMap hideCompleted roots) as [vs|] eqn:E; [|discriminate].
  inversion H. unfold visitsRoots in E.
  apply (collectIdx_heads _ (fun r j => mkVisit r [] (Nat.eqb j (length roots - 1)))) in E.
  - destruct E as [subs [Ec [El Hn]]]. exists subs. now subst vs.
  - intros c j ws. apply visits_head.
Qed.

Lemma formatTaskDetails_length (task : Task.t) : length (formatTaskDetails task) <= 5.
Proof.
  unfold formatTaskDetails.
  destruct (truthy (Task.project task)), (Task.tags task), (truthy (Task.dueDate task)),
    (truthyNum (Task.estimatedMinutes task)), (notePreviewText 60 (Task.note task));
    unfold push; rewrite ?length_app; simpl; lia.
Qed.

(** Every visit gives the task's line and at most five detail lines,
    so the tree has at least as many lines as visits and at most six
    times as many. *)
Theorem tree_line_count (taskMap : TaskMap) (hideCompleted : bool) (fuel : nat)
    (lines : list jsstring) :
  renderRoots fuel taskMap hideCompleted (filteredRootTasks taskMap hideCompleted)
  = Some lines ->
  exists vs,
    visitsRoots fuel taskMap hideCompleted (filteredRootTasks taskMap hideCompleted) = Some vs
    /\ length vs <= length lines <= 6 * length vs.
Proof.
  intros H. rewrite renderRoots_visits in H.
  destruct (visitsRoots fuel taskMap hideCompleted (filteredRootTasks taskMap hideCompleted))
    as [vs|]; [|discriminate].
  inversion H. exists vs. split; [reflexivity|].
  clear H H1. induction vs as [|v r IH]; [simpl; lia|].
  cbn [flat_map]. rewrite length_app. unfold visitLines at 1 3.
  cbn [length]. rewrite length_map.
  pose proof (formatTaskDetails_length (v_task v)).
  unfold jsstring, codeUnit in *. lia.
Qed.

(** ** The orchestrator: what the flags do not change *)

(** In tree mode neither the limit nor [groupByProject] plays a part:
    the tree is never cut to [limit] tasks. *)
Theorem hierarchy_ignores_limit (fuel : nat) (name : jsstring) (hide : option bool)
    (lim lim' : option Z) (grouping grouping' : option bool) (result : ScriptResult) :
  getCustomPerspectiveTasks fuel (mkOptions name hide lim (Some true) grouping) result
  = getCustomPerspectiveTasks fuel (mkOptions name hide lim' (Some true) grouping') result.
Proof.
  unfold getCustomPerspectiveTasks.
  cbn [perspectiveName hideCompleted limit showHierarchy groupByProject withDefault].
  destruct name as [|c r]; [reflexivity|].
  assert (H : forall l g l' g',
             tryBlock fuel (c :: r) (withDefault true hide) l true g result
             = tryBlock fuel (c :: r) (withDefault true hide) l' true g' result).
  { intros. unfold tryBlock. destruct (decodeResult result) as [data|e]; [|reflexivity].
    destruct (negb (success data)); [reflexivity|].
    destruct (if withDefault true hide then _ else _); reflexivity. }
  now rewrite (H _ _ (withDefault 1000%Z lim') (withDefault true grouping')).
Qed.

(** When no task is left after the filter, the answer is the line
    that says so, whatever the limit and the mode asked for; this
    covers a result without [taskMap]. *)
Theorem no_task_message_in_every_mode (fuel : nat)
    (options : GetCustomPerspectiveTasksOptions) (result : ScriptResult) (data : Payload) :
  perspectiveName options <> [] ->
  decodeResult result = Normal data ->
  success data = true ->
  let hide := withDefault true (hideCompleted options) in
  filteredTasksOf hide (withDefault [] (taskMap data)) = [] ->
  getCustomPerspectiveTasks fuel options result
  = Some (js "**透视任务：" ++ perspectiveName options ++ js "**" ++ nl ++ nl
            ++ js "暂无" ++ (if hide then js "未完成" else []) ++ js "任务。").
Proof.
  intros Hname Hdata Hok hide Hnone.
  rewrite getCustomPerspectiveTasks_named by exact Hname.
  unfold tryBlock. rewrite Hdata, Hok. cbn [negb]. fold hide.
  change (if hide
          then filter (fun task => negb (Task.completed task))
                 (Object_values (withDefault [] (taskMap data)))
          else Object_values (withDefault [] (taskMap data)))
    with (filteredTasksOf hide (withDefault [] (taskMap data))).
  now rewrite Hnone.
Qed.

Lemma firstn_In_of {A : Type} (n : nat) (l : list A) (x : A) : In x (firstn n l) -> In x l.
Proof.
  revert n. induction l as [|y r IH]; intros [|n]; simpl; try tauto.
  intros [H|H]; [now left | right; now apply (IH n)].
Qed.

Lemma displayTasks_In (tasks : list Task.t) (lim : Z) (t : Task.t) :
  In t (displayTasks tasks lim) -> In t tasks.
Proof.
  unfold displayTasks. destruct (negb (lim =? 0)%Z && (lim >? 0)%Z); [|trivial].
  apply firstn_In_of.
Qed.

(** With [hideCompleted], the tasks the flat and the grouped renderer
    are given to display are records of the map that are not
    completed. *)
Theorem displayed_tasks_are_uncompleted (taskMap : TaskMap) (lim : Z) (t : Task.t) :
  In t (displayTasks (filteredTasksOf true taskMap) lim) ->
  In t (Object_values taskMap) /\ Task.completed t = false.
Proof.
  intros H. apply displayTasks_In in H. unfold filteredTasksOf in H.
  apply filter_In in H. destruct H as [Hin Hc]. split; [exact Hin|].
  now apply negb_true_iff.
Qed.

(** ** The grouped renderer: every displayed task, once *)

Lemma groups_push_perm (groups : ProjectGroups) (p : jsstring) (task : Task.t) :
  groups_has groups p = true ->
  Permutation (concat (map snd (groups_push groups p task)))
    (task :: concat (map snd groups)).
Proof.
  induction groups as [|[k bucket] r IH]; simpl; [discriminate|].
  intros H. destruct (streq k p); simpl.
  - unfold push. rewrite <- app_assoc. simpl.
    symmetry. apply Permutation_middle.
  - specialize (IH H).
    etransitivity; [apply Permutation_app_head; exact IH|].
    symmetry. apply (Permutation_middle bucket (concat (map snd r)) task).
Qed.

Lemma groupStep_perm (st : ProjectGroups * list Task.t) (task : Task.t) :
  Permutation (concat (map snd (fst (groupStep st task))) ++ snd (groupStep st task))
    (task :: concat (map snd (fst st)) ++ snd st).
Proof.
  destruct st as [groups inbox]. unfold groupStep.
  destruct (truthy (Task.project task)) as [p|]; simpl.
  - apply (Permutation_app_tail inbox (l' := task :: concat (map snd groups))).
    destruct (groups_has groups p) eqn:E; simpl.
    + now apply groups_push_perm.
    + etransitivity; [apply groups_push_perm, groups_has_set_new|].
      unfold groups_set_new. rewrite map_app, concat_app. simpl.
      now rewrite !app_nil_r.
  - unfold push. rewrite app_assoc. symmetry.
    apply (Permutation_cons_append (concat (map snd groups) ++ inbox) task).
Qed.

Lemma fold_groupStep_perm (tasks : list Task.t) (st : ProjectGroups * list Task.t) :
  let st' := fold_left groupStep tasks st in
  Permutation (concat (map snd (fst st')) ++ snd st')
    (tasks ++ concat (map snd (fst st)) ++ snd st).
Proof.
  revert st. induction tasks as [|t r IH]; intros st; cbn [fold_left app]; [reflexivity|].
  etransitivity; [apply IH|].
  etransitivity; [apply Permutation_app_head, groupStep_perm|].
  symmetry. apply Permutation_middle.
Qed.

(** The buckets and the inbox together hold the displayed tasks, each
    as often as it is displayed: no task is lost between the sections
    and none is shown in two of them. *)
Theorem grouped_sections_partition_the_tasks (tasks : list Task.t) :
  Permutation
    (concat (map snd (fst (groupTasks tasks))) ++ snd (groupTasks tasks)) tasks.
Proof.
  unfold groupTasks.
  etransitivity; [apply (fold_groupStep_perm tasks ([], []))|].
  simpl. now rewrite app_nil_r.
Qed.

Lemma bucketLines_length (groups : ProjectGroups) :
  length (flat_map bucketLines groups)
  = 2 * length groups + length (concat (map snd groups)).
Proof.
  induction groups as [|[p bucket] r IH]; [reflexivity|].
  cbn [flat_map map concat snd]. rewrite !length_app, IH.
  unfold bucketLines. cbn [length]. rewrite length_map.
  unfold jsstring, codeUnit in *. lia.
Qed.

(** The body of the grouped output has one line per displayed task
    and two more, the heading and an empty line, per section. *)
Theorem grouped_line_count (tasks : list Task.t) :
  let groups := fst (groupTasks tasks) in
  let inbox := snd (groupTasks tasks) in
  length (groupedLines tasks)
  = length tasks + 2 * (length groups + (match inbox with [] => 0 | _ => 1 end)).
Proof.
  intros groups inbox. subst groups inbox.
  pose proof (groupTasks_size tasks) as Hsize.
  unfold groupedLines.
  destruct (groupTasks tasks) as [g i]. cbn [fst snd] in *.
  rewrite length_app, bucketLines_length.
  destruct i as [|t r]; unfold inboxLines; cbn [length] in *; rewrite ?length_map;
    cbn [length]; unfold ProjectGroups, jsstring, codeUnit in *; lia.
Qed.

(** A task goes to the inbox exactly when its [project] is missing or
    is the empty string. *)
Theorem inbox_holds_tasks_without_project_name (tasks : list Task.t) (t : Task.t) :
  In t (snd (groupTasks tasks))
  <-> In t tasks /\ (Task.project t = None \/ Task.project t = Some []).
Proof.
  forget_parameters.
  rewrite groupTasks_spec. cbn [snd]. rewrite filter_In.
  unfold noProject, projectOf, truthy.
  destruct (Task.project t) as [[|c r]|]; intuition (try discriminate; auto).
Qed.

(** ** The flat renderer: numbering *)

Lemma mapi_from_nth {A B : Type} (f : A -> nat -> B) (arr : list A) (start k : nat) (x : A) :
  nth_error arr k = Some x ->
  nth_error (mapi_from f start arr) k = Some (f x (start + k)).
Proof.
  revert start k. induction arr as [|y r IH]; intros start [|k] H; simpl in *;
    try discriminate.
  - inversion H. now rewrite Nat.add_0_r.
  - rewrite (IH (S start) k H). f_equal. f_equal. lia.
Qed.

(** The blocks of the flat output are numbered from 1 in the order of
    display: the block of the task at index [k] opens with [k + 1],
    a dot and the name in bold, and closes with the link line. *)
Theorem flat_blocks_numbered_from_one (tasks : list Task.t) (lim : Z) (k : nat) (t : Task.t) :
  nth_error (displayTasks tasks lim) k = Some t ->
  nth_error (mapi flatTaskText (displayTasks tasks lim)) k = Some (flatTaskText t k)
  /\ (exists rest,
        flatTaskText t k
        = numToString (Z.of_nat k + 1) ++ js ". **" ++ Task.name t ++ js "**" ++ rest)
  /\ (exists front,
        flatTaskText t k = front ++ nl ++ js "   " ++ formatTaskLink (Task.id t)).
Proof.
  intros H. split; [|split].
  - unfold mapi. now rewrite (mapi_from_nth _ _ 0 k t H).
  - unfold flatTaskText.
    destruct (truthy (Task.project t)), (Task.tags t), (truthy (Task.dueDate t)),
      (Task.flagged t), (truthyNum (Task.estimatedMinutes t)),
      (notePreviewText 100 (Task.note t));
      rewrite <- ?app_assoc; eexists; reflexivity.
  - unfold flatTaskText. eexists. reflexivity.
Qed.

(** ** The field formatters *)

(** A completed task is shown as completed whether it is flagged or
    not, in the tree and in the grouped list. *)
Theorem completed_takes_precedence_over_flagged (task : Task.t) (flagged : bool) :
  Task.completed task = true ->
  formatTaskName (setFlagged flagged task) = formatTaskName task
  /\ formatTaskForGroup (setFlagged flagged task) = formatTaskForGroup task
  /\ formatTaskName task = js "~~" ++ (js "**" ++ Task.name task ++ js "**") ++ js "~~ [完成]".
Proof.
  intros H. unfold formatTaskName, formatTaskForGroup, setFlagged.
  cbn [Task.id Task.name Task.completed Task.flagged Task.project Task.tags
       Task.dueDate Task.estimatedMinutes Task.note].
  rewrite H. repeat split.
Qed.

(** The flat block of a task says nothing of its completion: it is
    the same whether the task is completed or not. *)
Theorem flat_block_ignores_completion (task : Task.t) (completed : bool) (index : nat) :
  flatTaskText (setCompleted completed task) index = flatTaskText task index.
Proof. reflexivity. Qed.


(** ** The limit *)

(** Applying the limit twice is applying it once, what is displayed
    is a prefix of the sequence, and a sequence of at most [limit]
    tasks is displayed whole. *)
Theorem displayTasks_prefix (tasks : list Task.t) (lim : Z) :
  displayTasks (displayTasks tasks lim) lim = displayTasks tasks lim
  /\ (exists rest, tasks = displayTasks tasks lim ++ rest)
  /\ ((Z.of_nat (length tasks) <= lim)%Z -> displayTasks tasks lim = tasks).
Proof.
  unfold displayTasks.
  destruct (negb (lim =? 0)%Z && (lim >? 0)%Z) eqn:E.
  - split; [|split].
    + rewrite firstn_firstn. now rewrite Nat.min_id.
    + exists (skipn (Z.to_nat lim) tasks). symmetry. apply firstn_skipn.
    + intros H. apply firstn_all2. lia.
  - split; [reflexivity|]. split; [|reflexivity].
    exists []. now rewrite app_nil_r.
Qed.

(** ** The prefixes of the tree *)

Lemma visits_prefix (taskMap : TaskMap) (hideCompleted : bool) (fuel : nat) :
  forall task prefix isLast vs flags,
    prefix = concat (map continuation flags) ->
    visits fuel taskMap hideCompleted task prefix isLast = Some vs ->
    Forall (fun v => exists fl, v_prefix v = concat (map continuation fl)) vs.
Proof.
  forget_parameters.
  induction fuel as [|fuel IH]; intros task prefix isLast vs flags Hp H; [discriminate|].
  rewrite visits_S in H.
  destruct (collectIdx _ (childTasks taskMap hideCompleted task) 0) as [sub|] eqn:E;
    [|discriminate].
  inversion H; subst vs. constructor; [now exists flags|].
  assert (Hc : prefix ++ continuation isLast
               = concat (map continuation (flags ++ [isLast])))
    by (rewrite map_app, concat_app, Hp; simpl; now rewrite app_nil_r).
  eapply collectIdx_Forall; [|exact E].
  intros c i ws _ Hv. exact (IH c _ _ ws _ Hc Hv).
Qed.

(** The prefix of every rendered task is made of guide segments only,
    one per ancestor: a vertical bar and two spaces, or three spaces. *)
Theorem tree_prefixes_are_guide_segments (taskMap : TaskMap) (hideCompleted : bool)
    (fuel : nat) (lines : list jsstring) :
  renderRoots fuel taskMap hideCompleted (filteredRootTasks taskMap hideCompleted)
  = Some lines ->
  exists vs,
    lines = flat_map visitLines vs
    /\ Forall (fun v => exists fl, v_prefix v = concat (map continuation fl)
                                   /\ length (v_prefix v) = 3 * length fl) vs.
Proof.
  intros H. rewrite renderRoots_visits in H.
  destruct (visitsRoots fuel taskMap hideCompleted (filteredRootTasks taskMap hideCompleted))
    as [vs|] eqn:E; [|discriminate].
  inversion H. exists vs. split; [reflexivity|].
  unfold visitsRoots in E.
  assert (Hseg : Forall (fun v => exists fl, v_prefix v = concat (map continuation fl)) vs)
    by exact (collectIdx_Forall _ _ _
                (fun r i ws _ Hv => visits_prefix taskMap hideCompleted fuel r _ _ ws []
                                      eq_refl Hv) 0 vs E).
  apply (Forall_impl _ (P := fun v => exists fl, v_prefix v = concat (map continuation fl)));
    [|exact Hseg].
  intros v [fl Hfl]. exists fl. split; [exact Hfl|].
  rewrite Hfl. clear. induction fl as [|b r IH]; [reflexivity|].
  cbn [map concat]. rewrite length_app, IH.
  replace (length (continuation b)) with 3 by (destruct b; reflexivity).
  cbn [length]. lia.
Qed.

End Renderers.

(** * The properties on concrete inputs *)

(** ** Scenarios of the specification *)

(** Two records, B under A, both active: A is the only root and B its
    only child, each with the last-sibling connector. *)
Example scenario_tree :
  formatHierarchicalTasks isoDate 2 (js "P") treeMap true
  = Some (js "**透视任务：P** (层级视图)" ++ nl ++ nl
            ++ join nl [ js "└─ **A** [開く](omnifocus:///task/a)";
                         js "   └─ **B** [開く](omnifocus:///task/b)" ]).
Proof. vm_compute. reflexivity. Qed.

(** Three tasks, two of project Alpha and one without project. *)
Example scenario_grouped :
  formatGroupedByProject isoDate (js "P") alphaTasks 10 (Some 3%Z)
  = js "## 透视任务：P" ++ nl ++ nl ++ js "**共 3 个任务，1 个项目**"
      ++ join nl [ nl ++ js "### 📁 Alpha"; [];
                   js "- ○ **T1** [開く](omnifocus:///task/1)";
                   js "- ○ **T3** [開く](omnifocus:///task/3)";
                   nl ++ js "### 📥 收件箱"; [];
                   js "- ○ **T2** [開く](omnifocus:///task/2)" ].
Proof. vm_compute. reflexivity. Qed.

(** Five tasks and a limit of one, flat. *)
Example scenario_flat_limit :
  formatFlatTasks isoDate (js "P") fiveTasks 1 (Some 5%Z)
  = js "**透视任务：P** (1个任务)" ++ nl ++ nl
      ++ js "1. **T1**" ++ nl ++ js "   [開く](omnifocus:///task/1)"
      ++ nl ++ nl ++ js "提示: 共找到 5 个任务，显示 1 个".
Proof. vm_compute. reflexivity. Qed.

(** A string payload that does not parse. *)
Example scenario_parse_failure :
  getCustomPerspectiveTasks isoDate isoDate noParse 0 (namedOptions "P" None None)
    (ResultString (js "not json"))
  = Some (js "❌ **错误**: 解析字符串结果失败: not json").
Proof. vm_compute. reflexivity. Qed.

(** Ninety minutes, two hours, three quarters of an hour, and a
    present estimate of zero. *)
Example scenario_estimates :
  formatTaskDetails isoDate (estimatedTask 90) = [js "预估: 1h 30m"]
  /\ formatTaskDetails isoDate (estimatedTask 120) = [js "预估: 2h"]
  /\ formatTaskDetails isoDate (estimatedTask 45) = [js "预估: 45m"]
  /\ formatTaskDetails isoDate (estimatedTask 0) = []
  /\ formatTaskForGroup isoDate (estimatedTask 90)
     = js "- ○ **E** ⏱️ 1h30m [開く](omnifocus:///task/e1)"
  /\ formatTaskForGroup isoDate (estimatedTask 0)
     = js "- ○ **E** [開く](omnifocus:///task/e1)".
Proof. repeat split; vm_compute; reflexivity. Qed.

(** ** Witnesses *)

Lemma note_preview_of_trimmed_note_witness :
  Task.note (notedTask (js "  call Bob ")) = Some (js "  call Bob ")
  /\ formatTaskDetails isoDate (notedTask (js "  call Bob "))
     = formatTaskDetails isoDate (setNote None (notedTask (js "  call Bob ")))
         ++ [js "备注: " ++ trim (js "  call Bob ")].
Proof.
  split; [reflexivity|].
  apply (note_preview_of_trimmed_note isoDate isoDate
           (notedTask (js "  call Bob ")) (js "  call Bob ") 0 eq_refl).
  - vm_compute. discriminate.
  - vm_compute. lia.
Defined.


Lemma visits_counted_witness :
  wellFoundedBy sharedMap (fun t => length (Task.children t)) = true
  /\ exists fuel vs,
       (forall fuel', fuel <= fuel' ->
          renderRoots isoDate fuel' sharedMap true (filteredRootTasks sharedMap true)
          = Some (flat_map (visitLines isoDate) vs))
       /\ forall x,
            count_occ Task_eq_dec (map v_task vs) x
            = count_occ Task_eq_dec (filteredRootTasks sharedMap true) x
              + childReferences sharedMap true x vs.
Proof.
  split; [reflexivity|].
  apply (visits_counted_by_references isoDate sharedMap true
           (fun t => length (Task.children t))).
  reflexivity.
Defined.


Lemma exactly_one_render_mode_witness :
  perspectiveName (namedOptions "P" (Some true) (Some true)) <> []
  /\ decodeResult noParse (ResultObject (okPayload treeMap)) = Normal (okPayload treeMap)
  /\ success (okPayload treeMap) = true
  /\ filteredTasksOf true treeMap <> []
  /\ getCustomPerspectiveTasks isoDate isoDate noParse 2
       (namedOptions "P" (Some true) (Some true)) (ResultObject (okPayload treeMap))
     = formatHierarchicalTasks isoDate 2 (js "P") treeMap true.
Proof.
  split; [discriminate|]. split; [reflexivity|]. split; [reflexivity|].
  split; [discriminate|].
  apply (exactly_one_render_mode isoDate isoDate noParse 2
           (namedOptions "P" (Some true) (Some true)) (ResultObject (okPayload treeMap))
           (okPayload treeMap)).
  - discriminate.
  - reflexivity.
  - reflexivity.
  - discriminate.
Defined.

Lemma limit_and_footer_witness :
  (0 < 1)%Z
  /\ (displayTasks fiveTasks 1 = firstn (Z.to_nat 1) fiveTasks
      /\ (Z.of_nat (length (displayTasks fiveTasks 1)) <= 1)%Z)
  /\ flatFooter (Some 5%Z) (length (displayTasks fiveTasks 1)) <> []
  /\ groupedFooter (Some 5%Z) (length (displayTasks fiveTasks 1)) <> [].
Proof.
  destruct (limit_and_footer isoDate isoDate (js "P") fiveTasks 1 (Some 5%Z))
    as [Hpos [_ [_ [_ [_ [_ [Hflat Hgrouped]]]]]]].
  split; [lia|]. split; [apply Hpos; lia|].
  split; [apply Hflat | apply Hgrouped]; exists 5%Z; split; try reflexivity.
Defined.

Lemma root_set_witness :
  (In (plainTask "a" "A" ParentNull [js "b"]) (Object_values treeMap)
   /\ Task.parent (plainTask "a" "A" ParentNull [js "b"]) = ParentNull
   /\ (true = true -> Task.completed (plainTask "a" "A" ParentNull [js "b"]) = false))
  /\ In (plainTask "a" "A" ParentNull [js "b"]) (filteredRootTasks treeMap true).
Proof.
  assert (H : In (plainTask "a" "A" ParentNull [js "b"]) (Object_values treeMap)
              /\ Task.parent (plainTask "a" "A" ParentNull [js "b"]) = ParentNull
              /\ (true = true -> Task.completed (plainTask "a" "A" ParentNull [js "b"]) = false))
    by (split; [now left | split; reflexivity]).
  split; [exact H|].
  destruct (root_set_is_null_parent isoDate (js "P") treeMap true) as [_ [Hiff _]].
  apply Hiff. exact H.
Defined.

Lemma grouping_witness :
  In (js "Alpha", [projectTask "1" "T1" "Alpha"; projectTask "3" "T3" "Alpha"])
    (fst (groupTasks (displayTasks alphaTasks 10)))
  /\ [projectTask "1" "T1" "Alpha"; projectTask "3" "T3" "Alpha"]
     = filter (inProject (js "Alpha")) (displayTasks alphaTasks 10)
  /\ snd (groupTasks (displayTasks alphaTasks 10)) = [plainTask "2" "T2" ParentNull []].
Proof.
  destruct (grouping_first_seen_order isoDate (js "P") alphaTasks 10 (Some 3%Z))
    as [_ [_ [_ [Hbucket [Hinbox _]]]]].
  assert (Hin : In (js "Alpha", [projectTask "1" "T1" "Alpha"; projectTask "3" "T3" "Alpha"])
                  (fst (groupTasks (displayTasks alphaTasks 10))))
    by (vm_compute; now left).
  split; [exact Hin|]. split.
  - exact (proj1 (Hbucket _ _ Hin)).
  - rewrite Hinbox. reflexivity.
Defined.

Lemma failures_witness :
  perspectiveName (namedOptions "" (Some true) None) = []
  /\ getCustomPerspectiveTasks isoDate isoDate noParse 3 (namedOptions "" (Some true) None)
       (ResultObject (okPayload treeMap))
     = Some (js "❌ **错误**: " ++ js "透视名称不能为空")
  /\ perspectiveName (namedOptions "P" None None) <> []
  /\ getCustomPerspectiveTasks isoDate isoDate noParse 3 (namedOptions "P" None None)
       (ResultObject (failedPayload (Some (js "Perspective not found"))))
     = Some (js "❌ **错误**: " ++ js "Perspective not found").
Proof.
  split; [reflexivity|]. split.
  - apply (failures_become_error_strings isoDate isoDate noParse 3
             (namedOptions "" (Some true) None) (ResultObject (okPayload treeMap))).
    reflexivity.
  - split; [discriminate|].
    destruct (failures_become_error_strings isoDate isoDate noParse 3
                (namedOptions "P" None None)
                (ResultObject (failedPayload (Some (js "Perspective not found")))))
      as [_ Hnamed].
    destruct (Hnamed ltac:(discriminate)) as [_ [_ [_ [Hfail _]]]].
    apply (Hfail (failedPayload (Some (js "Perspective not found"))) eq_refl eq_refl).
    + reflexivity.
    + discriminate.
Defined.

Lemma estimate_witness :
  Task.estimatedMinutes (estimatedTask 90) = Some 90%Z
  /\ 90%Z <> 0%Z
  /\ insertedIn [js "预估: " ++ estimateText 90]
       (formatTaskDetails isoDate (estimatedTask 90))
       (formatTaskDetails isoDate (setEstimatedMinutes None (estimatedTask 90)))
  /\ estimateText 90 = js "1h 30m".
Proof.
  split; [reflexivity|]. split; [discriminate|]. split; [|reflexivity].
  destruct (estimate_rendered_iff_nonzero isoDate isoDate (estimatedTask 90) 0) as [Hin _].
  apply (Hin 90%Z eq_refl). discriminate.
Defined.

(** ** Where the code does otherwise *)

(** A note of two code units, within either budget, is not rendered
    unchanged: its leading space is gone.  The grouped renderer shows
    no note at all. *)
Lemma note_with_leading_space_is_trimmed :
  length (js " a") <= 60
  /\ formatTaskDetails isoDate (notedTask (js " a")) = [js "备注: a"]
  /\ formatTaskDetails isoDate (notedTask (js " a")) <> [js "备注: " ++ js " a"]
  /\ flatTaskText isoDate (notedTask (js " a")) 0
     = js "1. **N**" ++ nl ++ js "   备注: a" ++ nl ++ js "   [開く](omnifocus:///task/n1)"
  /\ formatTaskForGroup isoDate (notedTask (js " a"))
     = js "- ○ **N** [開く](omnifocus:///task/n1)".
Proof.
  split; [vm_compute; lia|].
  split; [vm_compute; reflexivity|].
  split; [vm_compute; discriminate|].
  split; vm_compute; reflexivity.
Qed.



(** B has a [null] parent and is listed among the children of A: it is
    rendered under A and again as a root. *)
Lemma shared_task_is_rendered_twice :
  In (plainTask "b" "B" ParentNull []) (filteredRootTasks sharedMap true)
  /\ childTasks sharedMap true (plainTask "a" "A" ParentNull [js "b"])
     = [plainTask "b" "B" ParentNull []]
  /\ visitsRoots 2 sharedMap true (filteredRootTasks sharedMap true)
     = Some [ mkVisit (plainTask "a" "A" ParentNull [js "b"]) [] false;
              mkVisit (plainTask "b" "B" ParentNull []) (js "│  ") true;
              mkVisit (plainTask "b" "B" ParentNull []) [] true ]
  /\ formatHierarchicalTasks isoDate 2 (js "P") sharedMap true
     = Some (js "**透视任务：P** (层级视图)" ++ nl ++ nl
               ++ join nl [ js "├─ **A** [開く](omnifocus:///task/a)";
                            js "│  └─ **B** [開く](omnifocus:///task/b)";
                            js "└─ **B** [開く](omnifocus:///task/b)" ]).
Proof.
  split; [vm_compute; tauto|].
  split; [reflexivity|].
  split; vm_compute; reflexivity.
Qed.

(** The only record has no [parent] field: it is not taken as a root,
    and the renderer says there is no root task. *)
Lemma missing_parent_is_not_a_root :
  Object_values orphanMap = [plainTask "a" "A" ParentAbsent []]
  /\ Task.parent (plainTask "a" "A" ParentAbsent []) = ParentAbsent
  /\ filteredRootTasks orphanMap true = []
  /\ formatHierarchicalTasks isoDate 1 (js "P") orphanMap true
     = Some (js "**透视任务：P** (层级视图)" ++ nl ++ nl ++ js "暂无未完成根任务。").
Proof.
  split; [reflexivity|]. split; [reflexivity|]. split; [reflexivity|].
  vm_compute. reflexivity.
Qed.

(** The collaborator reports a failure with an empty message: the
    answer carries the generic message, not the empty one. *)
Lemma empty_error_message_is_replaced :
  error (failedPayload (Some [])) = Some []
  /\ getCustomPerspectiveTasks isoDate isoDate noParse 0 (namedOptions "P" None None)
       (ResultObject (failedPayload (Some [])))
     = Some (js "❌ **错误**: Unknown error occurred")
  /\ getCustomPerspectiveTasks isoDate isoDate noParse 0 (namedOptions "P" None None)
       (ResultObject (failedPayload (Some [])))
     <> Some (js "❌ **错误**: " ++ []).
Proof.
  split; [reflexivity|].
  split; [vm_compute; reflexivity | vm_compute; discriminate].
Qed.

(** * Date variables and task links *)

(** ** Digits *)

Lemma digit_isDigit (z : Z) : (0 <= z <= 9)%Z -> isDigit (digit z) = true.
Proof.
  intros H. unfold isDigit, digit. apply andb_true_iff. split; apply N.leb_le; lia.
Qed.

Lemma digit_value (z : Z) : (0 <= z <= 9)%Z -> (Z.of_N (digit z) - 48 = z)%Z.
Proof. intros H. unfold digit. lia. Qed.

Lemma isDigit_bounds (c : codeUnit) : isDigit c = true -> (48 <= Z.of_N c <= 57)%Z.
Proof.
  unfold isDigit. intros H. apply andb_true_iff in H. destruct H as [H1 H2].
  apply N.leb_le in H1, H2. lia.
Qed.

Lemma digit_of_value (c : codeUnit) : isDigit c = true -> digit (Z.of_N c - 48) = c.
Proof. intros H. apply isDigit_bounds in H. unfold digit. lia. Qed.

Lemma isDigit_not_whiteSpace (c : codeUnit) : isDigit c = true -> isWhiteSpace c = false.
Proof.
  intros H. apply isDigit_bounds in H. unfold isWhiteSpace.
  repeat match goal with
         | |- context [(?a <=? ?b)%N] => destruct (N.leb_spec a b); try lia
         | |- context [(?a =? ?b)%N] => destruct (N.eqb_spec a b); try lia
         end.
Qed.

Lemma pad4_digits (y : Z) :
  (0 <= y <= 9999)%Z ->
  (0 <= y / 1000 <= 9 /\ 0 <= y / 100 mod 10 <= 9 /\ 0 <= y / 10 mod 10 <= 9
   /\ 0 <= y mod 10 <= 9)%Z.
Proof. intros H. Z.div_mod_to_equations. lia. Qed.

Lemma pad2_digits (m : Z) : (0 <= m <= 99)%Z -> (0 <= m / 10 <= 9 /\ 0 <= m mod 10 <= 9)%Z.
Proof. intros H. Z.div_mod_to_equations. lia. Qed.

Lemma parseInt10_pad4 (y : Z) : (0 <= y <= 9999)%Z -> parseInt10 (pad4 y) = y.
Proof.
  intros H. destruct (pad4_digits y H) as [H3 [H2 [H1 H0]]].
  unfold parseInt10, pad4. cbn [fold_left].
  rewrite !digit_value by assumption.
  Z.div_mod_to_equations. lia.
Qed.

Lemma parseInt10_pad2 (m : Z) : (0 <= m <= 99)%Z -> parseInt10 (pad2 m) = m.
Proof.
  intros H. destruct (pad2_digits m H) as [H1 H0].
  unfold parseInt10, pad2. cbn [fold_left].
  rewrite !digit_value by assumption.
  Z.div_mod_to_equations. lia.
Qed.

(** ** Matching a written date *)

Lemma matchIsoDate_written (y m d : Z) (suffix : jsstring) :
  (0 <= y <= 9999)%Z -> (0 <= m <= 99)%Z -> (0 <= d <= 99)%Z ->
  matchIsoDate (isoDateOf y m d ++ suffix) = Some (pad4 y, pad2 m, pad2 d).
Proof.
  intros Hy Hm Hd.
  destruct (pad4_digits y Hy) as [Y3 [Y2 [Y1 Y0]]].
  destruct (pad2_digits m Hm) as [M1 M0]. destruct (pad2_digits d Hd) as [D1 D0].
  unfold isoDateOf, pad4, pad2. change (js "-") with [45%N]. cbn [app matchIsoDate].
  rewrite !digit_isDigit by assumption. reflexivity.
Qed.

Lemma pad4_parseInt10 (y1 y2 y3 y4 : codeUnit) :
  isDigit y1 = true -> isDigit y2 = true -> isDigit y3 = true -> isDigit y4 = true ->
  pad4 (parseInt10 [y1; y2; y3; y4]) = [y1; y2; y3; y4]
  /\ (0 <= parseInt10 [y1; y2; y3; y4] <= 9999)%Z.
Proof.
  intros E1 E2 E3 E4.
  pose proof (isDigit_bounds _ E1) as B1. pose proof (isDigit_bounds _ E2) as B2.
  pose proof (isDigit_bounds _ E3) as B3. pose proof (isDigit_bounds _ E4) as B4.
  rewrite <- (digit_of_value y1 E1), <- (digit_of_value y2 E2),
    <- (digit_of_value y3 E3), <- (digit_of_value y4 E4) at 2.
  remember (Z.of_N y1 - 48)%Z as a eqn:Ea. remember (Z.of_N y2 - 48)%Z as b eqn:Eb.
  remember (Z.of_N y3 - 48)%Z as c eqn:Ec. remember (Z.of_N y4 - 48)%Z as d eqn:Ed.
  assert (E : parseInt10 [y1; y2; y3; y4] = (a * 1000 + b * 100 + c * 10 + d)%Z)
    by (unfold parseInt10; cbn [fold_left]; lia).
  rewrite E. clear E. split; [|lia]. unfold pad4.
  replace ((a * 1000 + b * 100 + c * 10 + d) / 1000)%Z with a
    by (Z.div_mod_to_equations; lia).
  replace ((a * 1000 + b * 100 + c * 10 + d) / 100 mod 10)%Z with b
    by (Z.div_mod_to_equations; lia).
  replace ((a * 1000 + b * 100 + c * 10 + d) / 10 mod 10)%Z with c
    by (Z.div_mod_to_equations; lia).
  replace ((a * 1000 + b * 100 + c * 10 + d) mod 10)%Z with d
    by (Z.div_mod_to_equations; lia).
  reflexivity.
Qed.

Lemma pad2_parseInt10 (m1 m2 : codeUnit) :
  isDigit m1 = true -> isDigit m2 = true ->
  pad2 (parseInt10 [m1; m2]) = [m1; m2] /\ (0 <= parseInt10 [m1; m2] <= 99)%Z.
Proof.
  intros E1 E2.
  pose proof (isDigit_bounds _ E1) as B1. pose proof (isDigit_bounds _ E2) as B2.
  rewrite <- (digit_of_value m1 E1), <- (digit_of_value m2 E2) at 2.
  remember (Z.of_N m1 - 48)%Z as a eqn:Ea. remember (Z.of_N m2 - 48)%Z as b eqn:Eb.
  assert (E : parseInt10 [m1; m2] = (a * 10 + b)%Z)
    by (unfold parseInt10; cbn [fold_left]; lia).
  rewrite E. clear E. split; [|lia]. unfold pad2.
  replace ((a * 10 + b) / 10)%Z with a by (Z.div_mod_to_equations; lia).
  replace ((a * 10 + b) mod 10)%Z with b by (Z.div_mod_to_equations; lia).
  reflexivity.
Qed.

Lemma matchIsoDate_shape (isoDate ys ms ds : jsstring) :
  matchIsoDate isoDate = Some (ys, ms, ds) ->
  exists suffix,
    isoDate = isoDateOf (parseInt10 ys) (parseInt10 ms) (parseInt10 ds) ++ suffix
    /\ (0 <= parseInt10 ys <= 9999)%Z /\ (0 <= parseInt10 ms <= 99)%Z
    /\ (0 <= parseInt10 ds <= 99)%Z.
Proof.
  destruct isoDate as [|y1 [|y2 [|y3 [|y4 [|h1 [|m1 [|m2 [|h2 [|d1 [|d2 suffix]]]]]]]]]];
    try discriminate.
  cbn [matchIsoDate].
  destruct (isDigit y1) eqn:Ey1; [|discriminate].
  destruct (isDigit y2) eqn:Ey2; [|discriminate].
  destruct (isDigit y3) eqn:Ey3; [|discriminate].
  destruct (isDigit y4) eqn:Ey4; [|discriminate].
  destruct (N.eqb_spec h1 45); [|discriminate].
  destruct (isDigit m1) eqn:Em1; [|discriminate].
  destruct (isDigit m2) eqn:Em2; [|discriminate].
  destruct (N.eqb_spec h2 45); [|discriminate].
  destruct (isDigit d1) eqn:Ed1; [|discriminate].
  destruct (isDigit d2) eqn:Ed2; [|discriminate].
  cbn [andb]. intros H. inversion H; subst ys ms ds h1 h2. clear H.
  destruct (pad4_parseInt10 y1 y2 y3 y4 Ey1 Ey2 Ey3 Ey4) as [Py By].
  destruct (pad2_parseInt10 m1 m2 Em1 Em2) as [Pm Bm].
  destruct (pad2_parseInt10 d1 d2 Ed1 Ed2) as [Pd Bd].
  exists suffix. split; [|now repeat split].
  unfold isoDateOf. rewrite Py, Pm, Pd. reflexivity.
Qed.

Lemma matchIsoDate_first_digit (c : codeUnit) (s : jsstring)
    (g : jsstring * jsstring * jsstring) :
  matchIsoDate (c :: s) = Some g -> isDigit c = true.
Proof.
  destruct s as [|y2 [|y3 [|y4 [|h1 [|m1 [|m2 [|h2 [|d1 [|d2 suffix]]]]]]]]];
    try discriminate.
  cbn [matchIsoDate]. destruct (isDigit c); [reflexivity | discriminate].
Qed.

(** ** Blank strings *)

Lemma trimStart_nil_all (s : jsstring) : trimStart s = [] -> forallb isWhiteSpace s = true.
Proof.
  induction s as [|c r IH]; simpl; [reflexivity|].
  destruct (isWhiteSpace c); [exact IH | discriminate].
Qed.

Lemma trim_head_not_blank (c : codeUnit) (s : jsstring) :
  isWhiteSpace c = false -> trim (c :: s) <> [].
Proof.
  intros Hc H. unfold trim in H. cbn [trimStart] in H. rewrite Hc in H.
  unfold trimEnd in H.
  assert (E : trimStart (rev (c :: s)) = [])
    by (destruct (trimStart (rev (c :: s))) as [|x l];
        [reflexivity | simpl in H; destruct (rev l); discriminate]).
  apply trimStart_nil_all in E. rewrite forallb_forall in E.
  specialize (E c). rewrite <- in_rev in E. rewrite E in Hc by now left. discriminate.
Qed.

Lemma generateAppleScriptDateVar_matched (isoDate varName : jsstring)
    (indent : option jsstring) (ys ms ds : jsstring) :
  matchIsoDate isoDate = Some (ys, ms, ds) ->
  generateAppleScriptDateVar isoDate varName indent
  = if ((parseInt10 ms <? 1) || (parseInt10 ms >? 12))%Z then
      Thrown (ErrorObject (js "Invalid month: " ++ numToString (parseInt10 ms)
                             ++ js " in date string: " ++ isoDate))
    else if ((parseInt10 ds <? 1) || (parseInt10 ds >? 31))%Z then
      Thrown (ErrorObject (js "Invalid day: " ++ numToString (parseInt10 ds)
                             ++ js " in date string: " ++ isoDate))
    else Normal (join (nl ++ withDefault [] indent)
                   (dateVarLines varName (parseInt10 ys) (parseInt10 ms) (parseInt10 ds))).
Proof.
  intros H. destruct isoDate as [|c s]; [discriminate|].
  pose proof (trim_head_not_blank c s
                (isDigit_not_whiteSpace c (matchIsoDate_first_digit c s _ H))) as Hb.
  unfold generateAppleScriptDateVar.
  destruct (trim (c :: s)); [congruence|]. now rewrite H.
Qed.

(** ** What [generateAppleScriptDateVar] accepts and what it gives *)

Lemma generateAppleScriptDateVar_written (y m d : Z) (suffix varName : jsstring)
    (indent : option jsstring) :
  (0 <= y <= 9999)%Z -> (1 <= m <= 12)%Z -> (1 <= d <= 31)%Z ->
  generateAppleScriptDateVar (isoDateOf y m d ++ suffix) varName indent
  = Normal
      (join (nl ++ withDefault [] indent)
         [ js "using terms from scripting additions";
           js "set " ++ varName ++ js " to current date";
           js "set day of " ++ varName ++ js " to 1";
           js "set year of " ++ varName ++ js " to " ++ numToString y;
           js "set month of " ++ varName ++ js " to " ++ numToString m;
           js "set day of " ++ varName ++ js " to " ++ numToString d;
           js "set time of " ++ varName ++ js " to 0";
           js "end using terms from" ]).
Proof.
  intros Hy Hm Hd.
  rewrite (generateAppleScriptDateVar_matched _ _ _ _ _ _
             (matchIsoDate_written y m d suffix Hy ltac:(lia) ltac:(lia))).
  rewrite parseInt10_pad4 by exact Hy. rewrite !parseInt10_pad2 by lia.
  destruct (Z.ltb_spec m 1); [lia|]. destruct (Z.gtb_spec m 12); [lia|].
  destruct (Z.ltb_spec d 1); [lia|]. destruct (Z.gtb_spec d 31); [lia|].
  reflexivity.
Qed.

(** A date written as four, two and two digits, with a month from 1
    to 12 and a day from 1 to 31, gives the eight lines of the
    snippet, joined by a line feed and the indent, with the three
    numbers written without leading zeros; whatever follows the day
    is of no account, and the day is not checked against the month. *)
Theorem date_snippet_of_written_date (y m d : Z) (suffix varName : jsstring)
    (indent : option jsstring) :
  (0 <= y <= 9999)%Z -> (1 <= m <= 12)%Z -> (1 <= d <= 31)%Z ->
  generateAppleScriptDateVar (isoDateOf y m d ++ suffix) varName indent
  = Normal
      (join (nl ++ withDefault [] indent)
         [ js "using terms from scripting additions";
           js "set " ++ varName ++ js " to current date";
           js "set day of " ++ varName ++ js " to 1";
           js "set year of " ++ varName ++ js " to " ++ numToString y;
           js "set month of " ++ varName ++ js " to " ++ numToString m;
           js "set day of " ++ varName ++ js " to " ++ numToString d;
           js "set time of " ++ varName ++ js " to 0";
           js "end using terms from" ]).
Proof. exact (generateAppleScriptDateVar_written y m d suffix varName indent). Qed.

Lemma generateAppleScriptDateVar_accepts (isoDate varName : jsstring)
    (indent : option jsstring) :
  (exists snippet, generateAppleScriptDateVar isoDate varName indent = Normal snippet)
  <-> exists y m d suffix,
        isoDate = isoDateOf y m d ++ suffix
        /\ (0 <= y <= 9999)%Z /\ (1 <= m <= 12)%Z /\ (1 <= d <= 31)%Z.
Proof.
  split.
  - intros [snippet H].
    destruct (matchIsoDate isoDate) as [[[ys ms] ds]|] eqn:E.
    + rewrite (generateAppleScriptDateVar_matched _ _ _ _ _ _ E) in H.
      destruct (matchIsoDate_shape _ _ _ _ E) as [suffix [Hs [Hy [Hm Hd]]]].
      destruct (Z.ltb_spec (parseInt10 ms) 1); [discriminate|].
      destruct (Z.gtb_spec (parseInt10 ms) 12); [discriminate|].
      destruct (Z.ltb_spec (parseInt10 ds) 1); [discriminate|].
      destruct (Z.gtb_spec (parseInt10 ds) 31); [discriminate|].
      exists (parseInt10 ys), (parseInt10 ms), (parseInt10 ds), suffix.
      repeat split; try assumption; lia.
    + unfold generateAppleScriptDateVar in H. rewrite E in H.
      destruct isoDate as [|c s]; [discriminate|]. destruct (trim (c :: s)); discriminate.
  - intros [y [m [d [suffix [Hs [Hy [Hm Hd]]]]]]]. subst isoDate.
    eexists. now apply generateAppleScriptDateVar_written.
Qed.

(** The function returns a snippet exactly for the strings that start
    with such a date; every other string makes it throw. *)
Theorem date_accepted_iff_written_date (isoDate varName : jsstring)
    (indent : option jsstring) :
  (exists snippet, generateAppleScriptDateVar isoDate varName indent = Normal snippet)
  <-> exists y m d suffix,
        isoDate = isoDateOf y m d ++ suffix
        /\ (0 <= y <= 9999)%Z /\ (1 <= m <= 12)%Z /\ (1 <= d <= 31)%Z.
Proof. exact (generateAppleScriptDateVar_accepts isoDate varName indent). Qed.

(** An empty or blank string is refused as empty.  A string that is
    not blank and does not start with a digit is refused as invalid:
    the date is not looked for after leading white space. *)
Theorem date_blank_or_unanchored_is_refused (varName : jsstring) (indent : option jsstring) :
  (forall isoDate, trim isoDate = [] ->
     generateAppleScriptDateVar isoDate varName indent
     = Thrown (ErrorObject (js "Date string cannot be empty")))
  /\ (forall c s, isDigit c = false -> trim (c :: s) <> [] ->
        generateAppleScriptDateVar (c :: s) varName indent
        = Thrown (ErrorObject (js "Invalid date string: " ++ c :: s))).
Proof.
  split.
  - intros isoDate H. unfold generateAppleScriptDateVar.
    destruct isoDate as [|c s]; [reflexivity|]. now rewrite H.
  - intros c s Hc Hb. unfold generateAppleScriptDateVar.
    destruct (trim (c :: s)); [congruence|].
    destruct (matchIsoDate (c :: s)) as [g|] eqn:E; [|reflexivity].
    apply matchIsoDate_first_digit in E. congruence.
Qed.

(** A month outside 1..12 is refused with the month in the message,
    whatever the day; with a month in range, a day outside 1..31 is
    refused with the day in the message. *)
Theorem date_month_then_day_checked (y m d : Z) (suffix varName : jsstring)
    (indent : option jsstring) :
  (0 <= y <= 9999)%Z -> (0 <= m <= 99)%Z -> (0 <= d <= 99)%Z ->
  ((m < 1 \/ 12 < m)%Z ->
     generateAppleScriptDateVar (isoDateOf y m d ++ suffix) varName indent
     = Thrown (ErrorObject (js "Invalid month: " ++ numToString m
                              ++ js " in date string: " ++ isoDateOf y m d ++ suffix)))
  /\ ((1 <= m <= 12)%Z -> (d < 1 \/ 31 < d)%Z ->
      generateAppleScriptDateVar (isoDateOf y m d ++ suffix) varName indent
      = Thrown (ErrorObject (js "Invalid day: " ++ numToString d
                               ++ js " in date string: " ++ isoDateOf y m d ++ suffix))).
Proof.
  intros Hy Hm Hd.
  rewrite (generateAppleScriptDateVar_matched _ _ _ _ _ _
             (matchIsoDate_written y m d suffix Hy Hm Hd)).
  rewrite !parseInt10_pad2 by assumption.
  split.
  - intros H. destruct (Z.ltb_spec m 1); [reflexivity|].
    destruct (Z.gtb_spec m 12); [reflexivity | lia].
  - intros Hin H. destruct (Z.ltb_spec m 1); [lia|]. destruct (Z.gtb_spec m 12); [lia|].
    destruct (Z.ltb_spec d 1); [reflexivity|].
    destruct (Z.gtb_spec d 31); [reflexivity | lia].
Qed.

(** What follows an accepted date changes nothing: a time part added
    to the string gives the same snippet. *)
Theorem date_suffix_is_ignored (isoDate suffix varName snippet : jsstring)
    (indent : option jsstring) :
  generateAppleScriptDateVar isoDate varName indent = Normal snippet ->
  generateAppleScriptDateVar (isoDate ++ suffix) varName indent = Normal snippet.
Proof.
  intros H.
  destruct (proj1 (generateAppleScriptDateVar_accepts isoDate varName indent)
              (ex_intro _ snippet H)) as [y [m [d [s0 [Hs [Hy [Hm Hd]]]]]]].
  subst isoDate.
  rewrite (generateAppleScriptDateVar_written y m d s0 varName indent Hy Hm Hd) in H.
  rewrite <- app_assoc, <- H.
  apply (generateAppleScriptDateVar_written y m d (s0 ++ suffix) varName indent Hy Hm Hd).
Qed.

(** ** Task links *)

(** The link tells the task: two ids with the same link are the same
    id, and only the empty id has the empty link. *)
Theorem formatTaskLink_injective (a b : jsstring) :
  formatTaskLink a = formatTaskLink b -> a = b.
Proof.
  unfold formatTaskLink.
  destruct a as [|x a'], b as [|y b']; intros H.
  - reflexivity.
  - apply (f_equal (@length codeUnit)) in H. rewrite !length_app in H. simpl in H. lia.
  - apply (f_equal (@length codeUnit)) in H. rewrite !length_app in H. simpl in H. lia.
  - apply app_inv_head in H. now apply app_inv_tail in H.
Qed.

(** ** On concrete inputs *)

Lemma tree_hides_completed_tasks_witness :
  renderRoots isoDate 2 siblingsMap true (filteredRootTasks siblingsMap true)
  = Some [ js "└─ **P** [開く](omnifocus:///task/p)";
           js "   └─ **B** [開く](omnifocus:///task/b)" ]
  /\ exists vs,
       [ js "└─ **P** [開く](omnifocus:///task/p)";
         js "   └─ **B** [開く](omnifocus:///task/b)" ]
       = flat_map (visitLines isoDate) vs
       /\ Forall (fun v => Task.completed (v_task v) = false) vs.
Proof.
  split; [vm_compute; reflexivity|].
  apply (tree_hides_completed_tasks isoDate siblingsMap 2). vm_compute. reflexivity.
Defined.


Lemma roots_rendered_witness :
  renderRoots isoDate 2 sharedMap true (filteredRootTasks sharedMap true)
  = Some [ js "├─ **A** [開く](omnifocus:///task/a)";
           js "│  └─ **B** [開く](omnifocus:///task/b)";
           js "└─ **B** [開く](omnifocus:///task/b)" ]
  /\ exists subs,
       [ js "├─ **A** [開く](omnifocus:///task/a)";
         js "│  └─ **B** [開く](omnifocus:///task/b)";
         js "└─ **B** [開く](omnifocus:///task/b)" ]
       = flat_map (visitLines isoDate) (concat subs)
       /\ length subs = length (filteredRootTasks sharedMap true)
       /\ forall i r, nth_error (filteredRootTasks sharedMap true) i = Some r ->
            exists rest,
              nth_error subs i
              = Some (mkVisit r [] (Nat.eqb i (length (filteredRootTasks sharedMap true) - 1))
                        :: rest).
Proof.
  split; [vm_compute; reflexivity|].
  apply (roots_rendered_in_map_order isoDate sharedMap true 2). vm_compute. reflexivity.
Defined.

Lemma tree_line_count_witness :
  renderRoots isoDate 2 treeMap true (filteredRootTasks treeMap true)
  = Some [ js "└─ **A** [開く](omnifocus:///task/a)";
           js "   └─ **B** [開く](omnifocus:///task/b)" ]
  /\ exists vs,
       visitsRoots 2 treeMap true (filteredRootTasks treeMap true) = Some vs
       /\ length vs <= 2 <= 6 * length vs.
Proof.
  split; [vm_compute; reflexivity|].
  apply (tree_line_count isoDate treeMap true 2
           [ js "└─ **A** [開く](omnifocus:///task/a)";
             js "   └─ **B** [開く](omnifocus:///task/b)" ]).
  vm_compute. reflexivity.
Defined.

Lemma no_task_message_witness :
  perspectiveName (namedOptions "P" (Some true) (Some false)) <> []
  /\ decodeResult noParse (ResultObject (mkPayload true None None None))
     = Normal (mkPayload true None None None)
  /\ success (mkPayload true None None None) = true
  /\ filteredTasksOf true (withDefault [] (taskMap (mkPayload true None None None))) = []
  /\ getCustomPerspectiveTasks isoDate isoDate noParse 0
       (namedOptions "P" (Some true) (Some false))
       (ResultObject (mkPayload true None None None))
     = Some (js "**透视任务：" ++ js "P" ++ js "**" ++ nl ++ nl
               ++ js "暂无" ++ js "未完成" ++ js "任务。").
Proof.
  split; [discriminate|]. split; [reflexivity|]. split; [reflexivity|].
  split; [reflexivity|].
  apply (no_task_message_in_every_mode isoDate isoDate noParse 0
           (namedOptions "P" (Some true) (Some false))
           (ResultObject (mkPayload true None None None))
           (mkPayload true None None None)).
  - discriminate.
  - reflexivity.
  - reflexivity.
  - reflexivity.
Defined.

Lemma displayed_tasks_witness :
  In (plainTask "b" "B" (ParentId (js "p")) [])
    (displayTasks (filteredTasksOf true siblingsMap) 10)
  /\ In (plainTask "b" "B" (ParentId (js "p")) []) (Object_values siblingsMap)
  /\ Task.completed (plainTask "b" "B" (ParentId (js "p")) []) = false.
Proof.
  assert (H : In (plainTask "b" "B" (ParentId (js "p")) [])
                (displayTasks (filteredTasksOf true siblingsMap) 10))
    by (vm_compute; tauto).
  split; [exact H|].
  exact (displayed_tasks_are_uncompleted siblingsMap 10 _ H).
Defined.

Lemma flat_blocks_numbered_witness :
  nth_error (displayTasks fiveTasks 2) 1 = Some (plainTask "2" "T2" ParentNull [])
  /\ nth_error (mapi (flatTaskText isoDate) (displayTasks fiveTasks 2)) 1
     = Some (flatTaskText isoDate (plainTask "2" "T2" ParentNull []) 1).
Proof.
  split; [reflexivity|].
  apply (flat_blocks_numbered_from_one isoDate fiveTasks 2 1
           (plainTask "2" "T2" ParentNull []) eq_refl).
Defined.

Lemma completed_precedence_witness :
  Task.completed (completedTask "c" "C" ParentNull) = true
  /\ formatTaskName (setFlagged true (completedTask "c" "C" ParentNull))
     = formatTaskName (completedTask "c" "C" ParentNull).
Proof.
  split; [reflexivity|].
  apply (completed_takes_precedence_over_flagged isoDate
           (completedTask "c" "C" ParentNull) true eq_refl).
Defined.


Lemma date_snippet_witness :
  (0 <= 2026 <= 9999)%Z /\ (1 <= 1 <= 12)%Z /\ (1 <= 9 <= 31)%Z
  /\ isoDateOf 2026 1 9 ++ js "T14:30:00" = js "2026-01-09T14:30:00"
  /\ generateAppleScriptDateVar (isoDateOf 2026 1 9 ++ js "T14:30:00") (js "v")
       (Some (js "    "))
     = Normal
         (join (nl ++ js "    ")
            [ js "using terms from scripting additions";
              js "set v to current date";
              js "set day of v to 1";
              js "set year of v to 2026";
              js "set month of v to 1";
              js "set day of v to 9";
              js "set time of v to 0";
              js "end using terms from" ]).
Proof.
  split; [lia|]. split; [lia|]. split; [lia|]. split; [vm_compute; reflexivity|].
  rewrite (date_snippet_of_written_date 2026 1 9 (js "T14:30:00") (js "v")
             (Some (js "    "))) by lia.
  vm_compute. reflexivity.
Defined.

Lemma date_month_then_day_witness :
  (0 <= 2026 <= 9999)%Z /\ (0 <= 13 <= 99)%Z /\ (0 <= 32 <= 99)%Z
  /\ (13 < 1 \/ 12 < 13)%Z
  /\ generateAppleScriptDateVar (isoDateOf 2026 13 32 ++ []) (js "v") None
     = Thrown (ErrorObject (js "Invalid month: " ++ numToString 13
                              ++ js " in date string: " ++ isoDateOf 2026 13 32 ++ [])).
Proof.
  split; [lia|]. split; [lia|]. split; [lia|]. split; [lia|].
  apply (date_month_then_day_checked 2026 13 32 [] (js "v") None); lia.
Defined.

Lemma date_suffix_witness :
  generateAppleScriptDateVar (js "2026-03-15") (js "v") None
  = Normal
      (join nl
         [ js "using terms from scripting additions";
           js "set v to current date";
           js "set day of v to 1";
           js "set year of v to 2026";
           js "set month of v to 3";
           js "set day of v to 15";
           js "set time of v to 0";
           js "end using terms from" ])
  /\ generateAppleScriptDateVar (js "2026-03-15" ++ js "T09:00:00Z") (js "v") None
     = Normal
         (join nl
            [ js "using terms from scripting additions";
              js "set v to current date";
              js "set day of v to 1";
              js "set year of v to 2026";
              js "set month of v to 3";
              js "set day of v to 15";
              js "set time of v to 0";
              js "end using terms from" ]).
Proof.
  assert (H : generateAppleScriptDateVar (js "2026-03-15") (js "v") None
              = Normal
                  (join nl
                     [ js "using terms from scripting additions";
                       js "set v to current date";
                       js "set day of v to 1";
                       js "set year of v to 2026";
                       js "set month of v to 3";
                       js "set day of v to 15";
                       js "set time of v to 0";
                       js "end using terms from" ]))
    by (vm_compute; reflexivity).
  split; [exact H|].
  exact (date_suffix_is_ignored _ (js "T09:00:00Z") _ _ None H).
Defined.

Lemma formatTaskLink_injective_witness :
  formatTaskLink (js "abc") = formatTaskLink (js "abc") /\ js "abc" = js "abc".
Proof.
  split; [reflexivity|].
  apply (formatTaskLink_injective (js "abc") (js "abc")). reflexivity.
Defined.

Lemma tree_prefixes_witness :
  renderRoots isoDate 2 sharedMap true (filteredRootTasks sharedMap true)
  = Some [ js "├─ **A** [開く](omnifocus:///task/a)";
           js "│  └─ **B** [開く](omnifocus:///task/b)";
           js "└─ **B** [開く](omnifocus:///task/b)" ]
  /\ exists vs,
       [ js "├─ **A** [開く](omnifocus:///task/a)";
         js "│  └─ **B** [開く](omnifocus:///task/b)";
         js "└─ **B** [開く](omnifocus:///task/b)" ]
       = flat_map (visitLines isoDate) vs
       /\ Forall (fun v => exists fl, v_prefix v = concat (map continuation fl)
                                      /\ length (v_prefix v) = 3 * length fl) vs.
Proof.
  split; [vm_compute; reflexivity|].
  apply (tree_prefixes_are_guide_segments isoDate sharedMap true 2). vm_compute. reflexivity.
Defined.
